(** * doh-proxy: a shallow embedding of dohproxy.go

    The proxy accepts DNS queries over TCP and UDP and forwards each one as a
    DNS-over-HTTPS POST to the configured upstreams, in order, until one
    answers with HTTP 200.  This development embeds [HandleDNSRequest],
    [Run] and [main] and proves the properties of the forwarding engine.

    Everything outside the file (the DNS codec of miekg/dns, net/http, the
    network itself) is an oracle collected in the record [World]; every
    observable effect of the handler (a log line, an HTTP call, an answer
    written to the client) is an [Event] appended to a trace. *)

From Stdlib Require Import ZArith String List Lia.
From Stdlib.Strings Require Import Byte.
From stdpp Require Import base option list strings gmap.

Local Open Scope string_scope.
Local Open Scope Z_scope.
Local Open Scope list_scope.

(** ** Data model *)

(** Go [error] values: only their message is observable (through [%v]). *)
Definition Error : Type := string.

(** Results of the codec calls that return [(value, error)] with exactly one
    of the two meaningful. *)
Inductive result (A : Type) : Type :=
| Ok (a : A)
| Err (e : Error).
Arguments Ok {A} a.
Arguments Err {A} e.

(** [const ( TCP int = iota; UDP )] *)
Definition TCP : Z := 0.
Definition UDP : Z := 1.

(** [http.StatusOK] *)
Definition StatusOK : Z := 200.

(** [http.Header] is a [map[string][]string]. *)
Abbreviation Header := (gmap string (list string)).

(** [Header.Set]: replaces the values stored under [key] by the single
    [value].  net/http first puts the key in canonical MIME form; the keys
    this program uses are already in that form, so they are stored as given. *)
Definition Header_Set (h : Header) (key value : string) : Header :=
  <[key := [value]]> h.

(** [Header.Get]: the first value stored under [key], [""] when absent. *)
Definition Header_Get (h : Header) (key : string) : string :=
  match h !! key with
  | Some (v :: _) => v
  | _ => ""
  end.

(** The part of [*http.Request] the program determines. *)
Record Request : Type := mkRequest {
  Method : string;
  URL : string;
  ReqBody : list byte;
  ReqHeader : Header
}.

(** An [io.ReadCloser] body seen through [io.ReadAll]: the bytes it delivers
    and the error, if any, that ends the read. *)
Record Reader : Type := mkReader {
  data : list byte;
  read_err : option Error
}.

Definition io_ReadAll (b : Reader) : list byte * option Error :=
  (data b, read_err b).

(** The part of [*http.Response] the program looks at. *)
Record Response : Type := mkResponse {
  StatusCode : Z;
  Body : Reader
}.

(** What [p.client.Do] hands back: a possibly nil response and a possibly nil
    error. *)
Definition DoResult : Type := option Response * option Error.

(** [DoHProxy] without its [client] field, which lives in [World]. *)
Record DoHProxy : Type := mkDoHProxy {
  listenAddress : string;
  port : string;
  upstreamURLs : list string;
  protocols : list Z;
  logRequests : bool
}.

(** The nil pointer dereferences the handler can run into. *)
Inductive PanicSite : Type :=
| NilRequest_HeaderSet      (* req.Header.Set on a nil req, lines 70-71 *)
| NilRequest_Do             (* p.client.Do(req) with a nil req, line 73 *)
| NilResponse_StatusCode.   (* response.StatusCode on a nil response, line 74 *)

Inductive Res (A : Type) : Type :=
| Val (a : A)
| Panic (site : PanicSite).
Arguments Val {A} a.
Arguments Panic {A} site.

Section Engine.

(** [dns.Msg] is opaque to the proxy. *)
Context {Msg : Type}.

(** The collaborators of the handler.
    - [Pack] and [Unpack] are the codec of miekg/dns;
    - [NewRequest_err url] is the error [http.NewRequest] reports for [url]
      ([None] when the request is built);
    - [client_Do n req] is the outcome of the [n]-th call (counted from 0)
      that one run of the handler makes to [p.client.Do]: timeouts, transport
      errors and upstream answers are all the network's choice. *)
Record World : Type := mkWorld {
  Pack : Msg -> result (list byte);
  Unpack : list byte -> result Msg;
  NewRequest_err : string -> option Error;
  client_Do : nat -> Request -> DoResult
}.

(** What a run of the handler does to the outside. *)
Inductive Event : Type :=
| EvLog (line : string)            (* log.Printf / log.Println *)
| EvDo (req : Request)             (* p.client.Do(req) *)
| EvClose (resp : Response)        (* response.Body.Close() *)
| EvHandleFailed (r : Msg)         (* dns.HandleFailed(w, r) *)
| EvWriteMsg (m : Msg).            (* w.WriteMsg(m) *)

(** ** The monad of handler code

    State: the trace so far and the number of HTTP calls made.  A
    computation either yields a value or panics. *)
Record State : Type := mkState {
  trace : list Event;
  calls : nat
}.

Definition Go (A : Type) : Type := State -> State * Res A.

Definition go_ret {A} (a : A) : Go A := fun s => (s, Val a).

Definition go_bind {A B} (f : A -> Go B) (m : Go A) : Go B :=
  fun s =>
    match m s with
    | (s', Val a) => f a s'
    | (s', Panic site) => (s', Panic site)
    end.

#[local] Instance Go_ret : MRet Go := @go_ret.
#[local] Instance Go_bind : MBind Go := @go_bind.

Definition panic {A} (site : PanicSite) : Go A := fun s => (s, Panic site).

Definition emit (e : Event) : Go unit :=
  fun s => (mkState (trace s ++ [e]) (calls s), Val tt).

(** [defer f(); body]: [f] runs when the function leaves, also on a panic. *)
Definition defer {A} (d : Go unit) (body : Go A) : Go A :=
  fun s =>
    match body s with
    | (s', r) => (fst (d s'), r)
    end.

Definition log_Printf (line : string) : Go unit := emit (EvLog line).

(** [log.Println] puts a space between its operands. *)
Definition log_Println (operands : list string) : Go unit :=
  emit (EvLog (String.concat " " operands)).

Definition dns_HandleFailed (r : Msg) : Go unit := emit (EvHandleFailed r).
Definition WriteMsg (m : Msg) : Go unit := emit (EvWriteMsg m).
Definition Body_Close (resp : Response) : Go unit := emit (EvClose resp).

Context (W : World).

(** [http.NewRequest(method, url, body)]: a fresh request with an empty
    header, or nil together with an error. *)
Definition http_NewRequest (method url : string) (body : list byte)
  : option Request * option Error :=
  match NewRequest_err W url with
  | Some e => (None, Some e)
  | None => (Some (mkRequest method url body ∅), None)
  end.

(** [req.Header.Set(key, value)] through the pointer [req]: a nil [req]
    panics. *)
Definition req_Header_Set (req : option Request) (key value : string)
  : Go (option Request) :=
  match req with
  | None => panic NilRequest_HeaderSet
  | Some rq =>
      mret (Some (mkRequest (Method rq) (URL rq) (ReqBody rq)
                            (Header_Set (ReqHeader rq) key value)))
  end.

(** [p.client.Do(req)]; net/http dereferences [req], so nil panics. *)
Definition call_Do (req : option Request) : Go DoResult :=
  match req with
  | None => panic NilRequest_Do
  | Some rq =>
      fun s => (mkState (trace s ++ [EvDo rq]) (S (calls s)),
                Val (client_Do W (calls s) rq))
  end.

(** [response.StatusCode] through the pointer [response]. *)
Definition get_StatusCode (response : option Response) : Go Z :=
  match response with
  | None => panic NilResponse_StatusCode
  | Some resp => mret (StatusCode resp)
  end.

(** The variables the upstream loop assigns: [response], [err] and
    [currentUpstream]. *)
Record LoopVars : Type := mkLoopVars {
  response : option Response;
  err : option Error;
  currentUpstream : string
}.

(** Lines 68-78: the [for _, upstream := range p.upstreamURLs] loop. *)
Fixpoint upstream_loop (dnsQuery : list byte) (urls : list string)
    (v : LoopVars) : Go LoopVars :=
  match urls with
  | [] => mret v
  | upstream :: rest =>
      let '(req, _) := http_NewRequest "POST" upstream dnsQuery in
      req ← req_Header_Set req "Content-Type" "application/dns-message";
      req ← req_Header_Set req "Accept" "application/dns-message";
      '(response, err) ← call_Do req;
      match err with
      | None =>
          code ← get_StatusCode response;
          if code =? StatusOK
          then mret (mkLoopVars response err upstream)        (* break *)
          else upstream_loop dnsQuery rest
                 (mkLoopVars response err (currentUpstream v))
      | Some _ =>
          upstream_loop dnsQuery rest
            (mkLoopVars response err (currentUpstream v))
      end
  end.

(** Lines 90-110: what happens to a selected, non-nil response. *)
Definition serve_response (p : DoHProxy) (r : Msg) (resp : Response)
    (currentUpstream : string) : Go unit :=
  defer (Body_Close resp)
    (let '(body, err) := io_ReadAll (Body resp) in
     match err with
     | Some e =>
         log_Printf ("Failed to read response from upstream: " +:+ e);;
         dns_HandleFailed r
     | None =>
         match Unpack W body with
         | Err e =>
             log_Printf ("Failed to unpack DNS response: " +:+ e);;
             dns_HandleFailed r
         | Ok dnsResponse =>
             (if logRequests p
              then log_Println ["Successfully proxied request through ";
                                currentUpstream]
              else mret tt);;
             WriteMsg dnsResponse
         end
     end).

(** Lines 79-110: the code after the loop. *)
Definition after_loop (p : DoHProxy) (r : Msg) (v : LoopVars) : Go unit :=
  if decide (currentUpstream v = "")
  then
    if logRequests p
    then log_Printf "Failed to query any upstream"
    else mret tt
  else
    match response v with
    | None =>
        log_Printf "All upstream DoH servers failed";;
        dns_HandleFailed r
    | Some resp => serve_response p r resp (currentUpstream v)
    end.

(** [func (p *DoHProxy) HandleDNSRequest(w dns.ResponseWriter, r *dns.Msg)] *)
Definition HandleDNSRequest (p : DoHProxy) (r : Msg) : Go unit :=
  match Pack W r with
  | Err e => log_Printf ("Failed to pack DNS request: " +:+ e)
  | Ok dnsQuery =>
      v ← upstream_loop dnsQuery (upstreamURLs p) (mkLoopVars None None "");
      after_loop p r v
  end.

End Engine.

Arguments World Msg : clear implicits.
Arguments Event Msg : clear implicits.
Arguments State Msg : clear implicits.
Arguments Go Msg A : clear implicits.

(** ** Running the handler and reading its trace *)

Section Observations.

Context {Msg : Type}.

(** One client request, from an empty trace. *)
Definition run_handler (W : World Msg) (p : DoHProxy) (r : Msg)
  : State Msg * Res unit :=
  HandleDNSRequest W p r (mkState [] 0).

Definition handler_trace (W : World Msg) (p : DoHProxy) (r : Msg)
  : list (Event Msg) :=
  trace (fst (run_handler W p r)).

(** The HTTP requests sent, in order. *)
Definition attempts (tr : list (Event Msg)) : list Request :=
  omap (fun e => match e with EvDo rq => Some rq | _ => None end) tr.

(** The log lines written, in order. *)
Definition log_lines (tr : list (Event Msg)) : list string :=
  omap (fun e => match e with EvLog l => Some l | _ => None end) tr.

(** What the DNS client is sent. *)
Inductive Answer : Type :=
| Failure (r : Msg)      (* the SERVFAIL reply of dns.HandleFailed *)
| Reply (m : Msg).       (* the upstream's message *)

Definition answers (tr : list (Event Msg)) : list Answer :=
  omap (fun e => match e with
                 | EvHandleFailed r => Some (Failure r)
                 | EvWriteMsg m => Some (Reply m)
                 | _ => None
                 end) tr.

(** The request lines 69-71 build for one upstream. *)
Definition doh_request (upstream : string) (dnsQuery : list byte) : Request :=
  mkRequest "POST" upstream dnsQuery
    (Header_Set (Header_Set ∅ "Content-Type" "application/dns-message")
                "Accept" "application/dns-message").

(** The test of line 74 on a call's outcome, and its failure without a
    panic: an error, or a response whose status is not 200. *)
Definition accepted (d : DoResult) : bool :=
  match d with
  | (Some resp, None) => StatusCode resp =? StatusOK
  | _ => false
  end.

Definition failed (d : DoResult) : bool :=
  match d with
  | (_, Some _) => true
  | (Some resp, None) => negb (StatusCode resp =? StatusOK)
  | (None, None) => false
  end.

(** The events of asking each of [urls] once, in order. *)
Definition sent (dnsQuery : list byte) (urls : list string)
  : list (Event Msg) :=
  map (fun u => EvDo (doh_request u dnsQuery)) urls.

(** The state once [urls] have been asked from state [s]. *)
Definition after_calls (dnsQuery : list byte) (urls : list string)
    (s : State Msg) : State Msg :=
  mkState (trace s ++ sent dnsQuery urls) (calls s + length urls).

(** Every upstream of [urls], asked as calls [n], [n+1], ..., is built into a
    request and then fails: timeout, transport error or a status other than
    200. *)
Fixpoint all_fail (W : World Msg) (dnsQuery : list byte) (n : nat)
    (urls : list string) : bool :=
  match urls with
  | [] => true
  | u :: rest =>
      match NewRequest_err W u with
      | None => failed (client_Do W n (doh_request u dnsQuery))
      | Some _ => false
      end && all_fail W dnsQuery (S n) rest
  end.

(** The shapes lines 79-110 can give the end of a trace, as a relation
    between the loop variables and the events that follow the loop. *)
Inductive Tail (W : World Msg) (p : DoHProxy) (r : Msg) (v : LoopVars)
  : list (Event Msg) -> Prop :=
| Tail_none_selected :
    currentUpstream v = "" ->
    Tail W p r v (if logRequests p
                  then [EvLog "Failed to query any upstream"] else [])
| Tail_nil_response :
    currentUpstream v <> "" ->
    response v = None ->
    Tail W p r v [EvLog "All upstream DoH servers failed"; EvHandleFailed r]
| Tail_read_error resp e :
    currentUpstream v <> "" ->
    response v = Some resp ->
    read_err (Body resp) = Some e ->
    Tail W p r v [EvLog ("Failed to read response from upstream: " +:+ e);
                  EvHandleFailed r; EvClose resp]
| Tail_unpack_error resp e :
    currentUpstream v <> "" ->
    response v = Some resp ->
    read_err (Body resp) = None ->
    Unpack W (data (Body resp)) = Err e ->
    Tail W p r v [EvLog ("Failed to unpack DNS response: " +:+ e);
                  EvHandleFailed r; EvClose resp]
| Tail_served resp m :
    currentUpstream v <> "" ->
    response v = Some resp ->
    read_err (Body resp) = None ->
    Unpack W (data (Body resp)) = Ok m ->
    Tail W p r v
      ((if logRequests p
        then [EvLog ("Successfully proxied request through  "
                     +:+ currentUpstream v)]
        else [])
       ++ [EvWriteMsg m; EvClose resp]).

(** The response bodies closed, in order. *)
Definition closed_bodies (tr : list (Event Msg)) : list Response :=
  omap (fun e => match e with EvClose resp => Some resp | _ => None end) tr.

(** A trace with its log lines taken out. *)
Definition without_logs (tr : list (Event Msg)) : list (Event Msg) :=
  omap (fun e => match e with EvLog _ => None | _ => Some e end) tr.

End Observations.

Arguments Answer Msg : clear implicits.

(** ** Startup: [main] and [Run]

    [main] and [Run] are what the main goroutine does; each [go] statement of
    [Run] is an event [SGo] of its trace, and the body of the goroutine it
    starts is modelled on its own, as [goroutine], below. *)

(** The flags after [flag.Parse]; [flag_u] lists the values of the [-u]
    occurrences in command-line order. *)
Record Flags : Type := mkFlags {
  flag_l : string;
  flag_p : string;
  flag_tcp : bool;
  flag_udp : bool;
  flag_log : bool;
  flag_u : list string
}.

(** The listener of a goroutine started by [Run]: a [dns.Server] on
    [net.JoinHostPort(Host, Port)] over [Net], serving the handler of
    [Proxy]. *)
Record Server : Type := mkServer {
  Host : string;
  Port : string;
  Net : string;
  Proxy : DoHProxy
}.

(** What the main goroutine does at startup. *)
Inductive StartupEvent : Type :=
| SLog (line : string)
| SPrintDefaults                   (* flag.PrintDefaults() *)
| SGo (srv : Server).              (* go func() { ... ListenAndServe ... }() *)

(** Where the main goroutine ends up: in [os.Exit(code)], or parked for good
    on the [select {}] of [Run].  Once it is parked, what becomes of the
    process is up to the listener goroutines. *)
Inductive Outcome : Type :=
| Exit (code : Z)
| Blocked.

(** The callback of [flag.Func("u", ...)], run once per [-u value]. *)
Definition add_upstream (st : list StartupEvent * list string) (value : string)
  : list StartupEvent * list string :=
  (fst st ++ [SLog ("Added " +:+ value +:+ " as an upstream DoH server")],
   snd st ++ [value]).

(** Lines 183-193: the protocols to listen on. *)
Definition select_protocols (tcpFlag udpFlag : bool) : list Z :=
  let protocols := [] in
  let protocols := if tcpFlag then protocols ++ [TCP] else protocols in
  let protocols := if udpFlag then protocols ++ [UDP] else protocols in
  if negb tcpFlag && negb udpFlag then [TCP; UDP] else protocols.

(** [NewDoHProxy]; the HTTP client it builds is the [client_Do] of [World]. *)
Definition NewDoHProxy (listenAddress port : string)
    (upstreamURLs : list string) (protocols : list Z) (logRequests : bool)
  : DoHProxy :=
  mkDoHProxy listenAddress port upstreamURLs protocols logRequests.

(** The loop of [Run], on the main goroutine: one [go] statement per entry
    of [p.protocols] that is [TCP] or [UDP]; any other value starts
    nothing. *)
Fixpoint Run_loop (p : DoHProxy) (protos : list Z) : list StartupEvent :=
  match protos with
  | [] => []
  | proto :: rest =>
      (if proto =? TCP
       then [SGo (mkServer (listenAddress p) (port p) "tcp" p)]
       else if proto =? UDP
       then [SGo (mkServer (listenAddress p) (port p) "udp" p)]
       else [])
      ++ Run_loop p rest
  end.

(** [Run] on the main goroutine: the loop, then [select {}]. *)
Definition Run (p : DoHProxy) : list StartupEvent * Outcome :=
  (Run_loop p (protocols p), Blocked).

Definition main (f : Flags) : list StartupEvent * Outcome :=
  let '(ev, upstreamURLs) := fold_left add_upstream (flag_u f) ([], []) in
  if (length upstreamURLs =? 0)%nat
  then (ev ++ [SPrintDefaults], Exit 1)
  else
    let protocols := select_protocols (flag_tcp f) (flag_udp f) in
    let ev := if flag_log f then ev ++ [SLog "Logging requests"] else ev in
    let proxy := NewDoHProxy (flag_l f) (flag_p f) upstreamURLs protocols
                             (flag_log f) in
    let '(ev', out) := Run proxy in
    (ev ++ ev', out).

(** The listeners a startup trace starts. *)
Definition started (ev : list StartupEvent) : list Server :=
  omap (fun e => match e with SGo srv => Some srv | _ => None end) ev.

(** The lines the main goroutine logs. *)
Definition main_lines (ev : list StartupEvent) : list string :=
  omap (fun e => match e with SLog line => Some line | _ => None end) ev.

(** The line the [-u] callback logs for one value. *)
Definition added_line (value : string) : string :=
  "Added " +:+ value +:+ " as an upstream DoH server".

(** ** The listener goroutines *)

(** What [server.ListenAndServe()] does for one listener: it serves and does
    not return, or it returns, with an error when the listener could not be
    set up (the address is in use, the port is privileged, ...). *)
Inductive ListenResult : Type :=
| Serves
| Returns (err : option Error).

(** What a listener goroutine does. *)
Inductive ListenerEvent : Type :=
| LHandleFunc (pattern : string) (p : DoHProxy)
                                   (* dns.HandleFunc(pattern, p.HandleDNSRequest) *)
| LLog (line : string)
| LListenAndServe (srv : Server).  (* server.ListenAndServe() *)

(** Where a listener goroutine ends up: inside [ListenAndServe], at the end
    of its function, or in the [os.Exit(1)] of [log.Fatalf], which ends the
    whole process. *)
Inductive ListenerEnd : Type :=
| Serving
| Finished
| Fatal (code : Z).

(** The two function literals of [Run] differ in the network and in the name
    of it they log. *)
Definition listener_body (p : DoHProxy) (net label : string)
    (res : ListenResult) : list ListenerEvent * ListenerEnd :=
  let server := mkServer (listenAddress p) (port p) net p in
  let ev :=
    [LHandleFunc "." p;
     LLog ("Starting DoH Proxy on " +:+ listenAddress p +:+ ":" +:+ port p
           +:+ " over " +:+ label);
     LListenAndServe server] in
  match res with
  | Serves => (ev, Serving)
  | Returns None => (ev, Finished)
  | Returns (Some e) =>
      (ev ++ [LLog ("Failed to start DNS server (" +:+ label +:+ "): " +:+ e)],
       Fatal 1)
  end.

(** Lines 119-127. *)
Definition tcp_listener (p : DoHProxy) (res : ListenResult)
  : list ListenerEvent * ListenerEnd :=
  listener_body p "tcp" "TCP" res.

(** Lines 129-137. *)
Definition udp_listener (p : DoHProxy) (res : ListenResult)
  : list ListenerEvent * ListenerEnd :=
  listener_body p "udp" "UDP" res.

(** The body of the goroutine behind [SGo srv], given what its
    [ListenAndServe] does. *)
Definition goroutine (srv : Server) (res : ListenResult)
  : list ListenerEvent * ListenerEnd :=
  if decide (Net srv = "tcp")
  then tcp_listener (Proxy srv) res
  else udp_listener (Proxy srv) res.

(** ** A concrete world for the examples

    Messages are strings; the codec is the identity on their bytes, except
    that the message ["unpackable"] does not pack and a body starting with the
    byte [xff] does not unpack. *)
Module Demo.

Definition bad_url : string := "://".
Definition url1 : string := "https://bad.invalid/dns-query".
Definition url2 : string := "https://good.test/dns-query".
Definition url3 : string := "https://other.test/dns-query".

Definition demo_Pack (m : string) : result (list byte) :=
  if decide (m = "unpackable") then Err "dns: bad rdata"
  else Ok (list_byte_of_string m).

Definition demo_Unpack (b : list byte) : result string :=
  match b with
  | xff :: _ => Err "dns: overflow unpacking uint16"
  | _ => Ok (string_of_list_byte b)
  end.

Definition demo_NewRequest_err (url : string) : option Error :=
  if decide (url = bad_url) then Some "parse ://: missing protocol scheme"
  else None.

(** The client's query and its wire form. *)
Definition query : string := "example.com A".
Definition wire : list byte := list_byte_of_string query.

Definition ok_response : Response :=
  mkResponse 200
    (mkReader (list_byte_of_string "example.com A 1.2.3.4") None).

Definition garbage_response : Response :=
  mkResponse 200 (mkReader [xff; x00] None).

(** [url1] times out, [url2] and [url3] answer 200. *)
Definition demo_Do (n : nat) (rq : Request) : DoResult :=
  if decide (URL rq = url1)
  then (None, Some "context deadline exceeded")
  else (Some ok_response, None).

Definition world : World string :=
  mkWorld demo_Pack demo_Unpack demo_NewRequest_err demo_Do.

(** Every upstream answers 503. *)
Definition world_503 : World string :=
  mkWorld demo_Pack demo_Unpack demo_NewRequest_err
    (fun _ _ => (Some (mkResponse 503 (mkReader [] None)), None)).

(** Every upstream answers 200 with a body that is no DNS message. *)
Definition world_garbage : World string :=
  mkWorld demo_Pack demo_Unpack demo_NewRequest_err
    (fun _ _ => (Some garbage_response, None)).

(** Every upstream answers 200 and then the connection breaks while the
    body is read. *)
Definition truncated_response : Response :=
  mkResponse 200 (mkReader [x00; x01] (Some "unexpected EOF")).

Definition world_truncated : World string :=
  mkWorld demo_Pack demo_Unpack demo_NewRequest_err
    (fun _ _ => (Some truncated_response, None)).

Definition proxy (urls : list string) (logging : bool) : DoHProxy :=
  mkDoHProxy "127.0.0.1" "5353" urls [UDP] logging.

(** The configuration of the spec's example scenario, with a third
    upstream behind the good one. *)
Definition three : DoHProxy := proxy [url1; url2; url3] true.

(** The same with request logging off. *)
Definition quiet : DoHProxy := proxy [url1; url2; url3] false.

(** A configuration whose second URL does not parse. *)
Definition broken : DoHProxy := proxy [url1; bad_url; url2] true.

End Demo.

(** ** The upstream loop *)

Ltac go_unfold :=
  unfold log_Printf, log_Println, dns_HandleFailed, WriteMsg, Body_Close,
    defer, mbind, Go_bind, go_bind, mret, Go_ret, go_ret, panic, emit.

Section LoopFacts.

Context {Msg : Type} (W : World Msg) (dnsQuery : list byte).

(** One turn of the loop, by cases on the collaborators' answers. *)
Lemma upstream_loop_cons u rest v (s : State Msg) :
  upstream_loop W dnsQuery (u :: rest) v s =
  match NewRequest_err W u with
  | Some _ => (s, Panic NilRequest_HeaderSet)
  | None =>
      let s1 := after_calls dnsQuery [u] s in
      match client_Do W (calls s) (doh_request u dnsQuery) with
      | (response, Some e) =>
          upstream_loop W dnsQuery rest
            (mkLoopVars response (Some e) (currentUpstream v)) s1
      | (None, None) => (s1, Panic NilResponse_StatusCode)
      | (Some resp, None) =>
          if StatusCode resp =? StatusOK
          then (s1, Val (mkLoopVars (Some resp) None u))
          else upstream_loop W dnsQuery rest
                 (mkLoopVars (Some resp) None (currentUpstream v)) s1
      end
  end.
Proof.
  unfold after_calls, sent. simpl. unfold http_NewRequest.
  destruct (NewRequest_err W u) as [e|]; [reflexivity|].
  simpl. go_unfold. simpl. fold (doh_request u dnsQuery).
  replace (calls s + 1)%nat with (S (calls s)) by lia.
  destruct (client_Do W (calls s) (doh_request u dnsQuery))
    as [[resp|] [e|]]; simpl; try reflexivity.
  destruct (StatusCode resp =? StatusOK); reflexivity.
Qed.

Lemma after_calls_nil (s : State Msg) : after_calls dnsQuery [] s = s.
Proof.
  destruct s as [tr n]. unfold after_calls. simpl.
  rewrite app_nil_r. f_equal. lia.
Qed.

Lemma after_calls_app l1 l2 (s : State Msg) :
  after_calls dnsQuery (l1 ++ l2) s
  = after_calls dnsQuery l2 (after_calls dnsQuery l1 s).
Proof.
  unfold after_calls, sent. simpl.
  rewrite map_app, length_app, app_assoc. f_equal. lia.
Qed.

Lemma after_calls_cons u l (s : State Msg) :
  after_calls dnsQuery (u :: l) s
  = after_calls dnsQuery l (after_calls dnsQuery [u] s).
Proof. apply (after_calls_app [u] l). Qed.

(** The loop only ever asks a prefix of the list, each entry once and in
    order, whatever the network does and however the loop ends. *)
Lemma upstream_loop_asks_prefix urls v (s : State Msg) :
  exists m, (m <= length urls)%nat /\
    fst (upstream_loop W dnsQuery urls v s)
    = after_calls dnsQuery (take m urls) s.
Proof.
  revert v s. induction urls as [|u rest IH]; intros v s.
  - exists 0%nat. simpl. split; [lia|]. symmetry. apply after_calls_nil.
  - rewrite upstream_loop_cons.
    destruct (NewRequest_err W u) as [e|].
    { exists 0%nat. simpl. split; [lia|]. symmetry. apply after_calls_nil. }
    cbv zeta.
    assert (Hstep : forall v1,
      exists m, (m <= length (u :: rest))%nat /\
        fst (upstream_loop W dnsQuery rest v1 (after_calls dnsQuery [u] s))
        = after_calls dnsQuery (take m (u :: rest)) s).
    { intros v1. destruct (IH v1 (after_calls dnsQuery [u] s)) as (m & Hm & Heq).
      exists (S m). simpl. split; [lia|].
      rewrite Heq. symmetry. apply after_calls_cons. }
    assert (Hone : after_calls dnsQuery [u] s
                   = after_calls dnsQuery (take 1 (u :: rest)) s).
    { simpl. rewrite take_0. reflexivity. }
    destruct (client_Do W (calls s) (doh_request u dnsQuery))
      as [[resp|] [e|]]; try apply Hstep.
    + destruct (StatusCode resp =? StatusOK); [|apply Hstep].
      exists 1%nat. simpl. split; [lia|]. rewrite take_0. reflexivity.
    + exists 1%nat. simpl. split; [lia|]. rewrite take_0. reflexivity.
Qed.

(** A run of failing upstreams is skipped over: the loop goes on with the
    rest of the list and leaves [currentUpstream] as it was. *)
Lemma upstream_loop_skip pre rest v (s : State Msg) :
  all_fail W dnsQuery (calls s) pre = true ->
  exists v1,
    upstream_loop W dnsQuery (pre ++ rest) v s
    = upstream_loop W dnsQuery rest v1 (after_calls dnsQuery pre s)
    /\ currentUpstream v1 = currentUpstream v.
Proof.
  revert v s. induction pre as [|u pre IH]; intros v s Hfail.
  - exists v. rewrite after_calls_nil. split; reflexivity.
  - simpl in Hfail. apply andb_true_iff in Hfail as [Hu Hrest].
    change ((u :: pre) ++ rest) with (u :: (pre ++ rest)).
    rewrite upstream_loop_cons, (after_calls_cons u pre).
    destruct (NewRequest_err W u) as [e|]; [discriminate|].
    cbv zeta.
    assert (Hcalls : calls (after_calls dnsQuery [u] s) = S (calls s)).
    { simpl. lia. }
    rewrite <- Hcalls in Hrest.
    destruct (client_Do W (calls s) (doh_request u dnsQuery))
      as [[resp|] [e|]]; simpl in Hu; try discriminate.
    + destruct (IH (mkLoopVars (Some resp) (Some e) (currentUpstream v)) _ Hrest)
        as (v1 & Heq & Hcu).
      exists v1. split; [exact Heq | exact Hcu].
    + destruct (StatusCode resp =? StatusOK); [discriminate|].
      destruct (IH (mkLoopVars (Some resp) None (currentUpstream v)) _ Hrest)
        as (v1 & Heq & Hcu).
      exists v1. split; [exact Heq | exact Hcu].
    + destruct (IH (mkLoopVars None (Some e) (currentUpstream v)) _ Hrest)
        as (v1 & Heq & Hcu).
      exists v1. split; [exact Heq | exact Hcu].
Qed.

End LoopFacts.

(** ** Reading traces *)

Section TraceFacts.

Context {Msg : Type}.
Implicit Types tr : list (Event Msg).

Lemma attempts_app tr1 tr2 :
  attempts (tr1 ++ tr2) = attempts tr1 ++ attempts tr2.
Proof. apply omap_app. Qed.

Lemma log_lines_app tr1 tr2 :
  log_lines (tr1 ++ tr2) = log_lines tr1 ++ log_lines tr2.
Proof. apply omap_app. Qed.

Lemma answers_app tr1 tr2 :
  answers (tr1 ++ tr2) = answers tr1 ++ answers tr2.
Proof. apply omap_app. Qed.

Lemma attempts_sent q urls :
  attempts (sent (Msg:=Msg) q urls) = map (fun u => doh_request u q) urls.
Proof. induction urls as [|u l IH]; simpl; [reflexivity | now rewrite <- IH]. Qed.

Lemma log_lines_sent q urls : log_lines (sent (Msg:=Msg) q urls) = [].
Proof. induction urls as [|u l IH]; simpl; [reflexivity | exact IH]. Qed.

Lemma answers_sent q urls : answers (sent (Msg:=Msg) q urls) = [].
Proof. induction urls as [|u l IH]; simpl; [reflexivity | exact IH]. Qed.

Lemma Tail_attempts (W : World Msg) p r v evs :
  Tail W p r v evs -> attempts evs = [].
Proof. intros H. destruct H; try reflexivity; destruct (logRequests p); reflexivity. Qed.

End TraceFacts.

(** ** The handler, piece by piece *)

Section HandlerFacts.

Context {Msg : Type} (W : World Msg).

(** How the loop can return: no upstream was accepted and all of them
    failed, or the first upstream that did not fail was accepted. *)
Lemma upstream_loop_returns q urls v (s s' : State Msg) v' :
  upstream_loop W q urls v s = (s', Val v') ->
  (currentUpstream v' = currentUpstream v
   /\ all_fail W q (calls s) urls = true
   /\ s' = after_calls q urls s)
  \/ (exists pre u post resp,
        urls = pre ++ u :: post
        /\ all_fail W q (calls s) pre = true
        /\ NewRequest_err W u = None
        /\ client_Do W (calls s + length pre) (doh_request u q)
           = (Some resp, None)
        /\ StatusCode resp = StatusOK
        /\ v' = mkLoopVars (Some resp) None u
        /\ s' = after_calls q (pre ++ [u]) s).
Proof.
  revert v s. induction urls as [|u rest IH]; intros v s Hrun.
  - simpl in Hrun. injection Hrun as <- <-. left.
    rewrite after_calls_nil. auto.
  - rewrite upstream_loop_cons in Hrun.
    destruct (NewRequest_err W u) as [e|] eqn:Hnew; [discriminate|].
    cbv zeta in Hrun.
    assert (Hrec : forall v1,
      currentUpstream v1 = currentUpstream v ->
      failed (client_Do W (calls s) (doh_request u q)) = true ->
      upstream_loop W q rest v1 (after_calls q [u] s) = (s', Val v') ->
      (currentUpstream v' = currentUpstream v
       /\ all_fail W q (calls s) (u :: rest) = true
       /\ s' = after_calls q (u :: rest) s)
      \/ (exists pre u0 post resp,
            u :: rest = pre ++ u0 :: post
            /\ all_fail W q (calls s) pre = true
            /\ NewRequest_err W u0 = None
            /\ client_Do W (calls s + length pre) (doh_request u0 q)
               = (Some resp, None)
            /\ StatusCode resp = StatusOK
            /\ v' = mkLoopVars (Some resp) None u0
            /\ s' = after_calls q (pre ++ [u0]) s)).
    { intros v1 Hcu Hfailed Hloop.
      assert (Hcalls : calls (after_calls q [u] s) = S (calls s))
        by (simpl; lia).
      destruct (IH _ _ Hloop) as [(Hc & Hall & Hs) | Hsel].
      - left. rewrite Hcalls in Hall. simpl. rewrite Hnew, Hfailed, Hall.
        rewrite (after_calls_cons q u rest). split; [congruence | auto].
      - right. destruct Hsel as (pre & u0 & post & resp & He & Hall & Hn & Hdo & Hst & Hv & Hs).
        exists (u :: pre), u0, post, resp.
        rewrite Hcalls in Hall, Hdo.
        split; [simpl; congruence|].
        split; [simpl; rewrite Hnew, Hfailed, Hall; reflexivity|].
        split; [exact Hn|].
        split; [rewrite <- Hdo; f_equal; simpl; lia|].
        split; [exact Hst|]. split; [exact Hv|].
        change ((u :: pre) ++ [u0]) with (u :: (pre ++ [u0])).
        rewrite (after_calls_cons q u (pre ++ [u0])). exact Hs. }
    destruct (client_Do W (calls s) (doh_request u q))
      as [[resp|] [e|]] eqn:Hdo; try discriminate.
    + refine (Hrec _ _ _ Hrun); reflexivity.
    + destruct (StatusCode resp =? StatusOK) eqn:Hst.
      * injection Hrun as <- <-. right.
        exists [], u, rest, resp. simpl.
        replace (calls s + 0)%nat with (calls s) by lia.
        apply Z.eqb_eq in Hst. auto 10.
      * refine (Hrec _ _ _ Hrun); [reflexivity | simpl; now rewrite Hst].
    + refine (Hrec _ _ _ Hrun); reflexivity.
Qed.

(** Lines 79-110 never panic and add one of the five tails to the trace. *)
Lemma after_loop_run p r v (s : State Msg) :
  exists evs,
    after_loop W p r v s = (mkState (trace s ++ evs) (calls s), Val tt)
    /\ Tail W p r v evs.
Proof.
  unfold after_loop. destruct (decide (currentUpstream v = "")) as [Hcu|Hcu].
  - eexists. split; [|apply Tail_none_selected; exact Hcu].
    destruct (logRequests p); go_unfold; simpl; [reflexivity|].
    rewrite app_nil_r. destruct s; reflexivity.
  - destruct (response v) as [resp|] eqn:Hresp.
    + unfold serve_response, io_ReadAll.
      destruct (read_err (Body resp)) as [e|] eqn:Hread.
      * eexists. split; [|eapply Tail_read_error; eassumption].
        go_unfold. simpl. rewrite <- ?app_assoc. reflexivity.
      * destruct (Unpack W (data (Body resp))) as [m|e] eqn:Hun.
        -- eexists. split; [|eapply Tail_served; eassumption].
           destruct (logRequests p); go_unfold; simpl;
             rewrite <- ?app_assoc; reflexivity.
        -- eexists. split; [|eapply Tail_unpack_error; eassumption].
           go_unfold. simpl. rewrite <- ?app_assoc. reflexivity.
    + eexists. split; [|apply Tail_nil_response; assumption].
      go_unfold. simpl. rewrite <- ?app_assoc. reflexivity.
Qed.

Lemma run_handler_pack_error p r e :
  Pack W r = Err e ->
  run_handler W p r
  = (mkState [EvLog ("Failed to pack DNS request: " +:+ e)] 0, Val tt).
Proof. intros H. unfold run_handler, HandleDNSRequest. rewrite H. reflexivity. Qed.

Lemma run_handler_packed p r q :
  Pack W r = Ok q ->
  run_handler W p r
  = match upstream_loop W q (upstreamURLs p) (mkLoopVars None None "")
            (mkState [] 0) with
    | (s', Val v') => after_loop W p r v' s'
    | (s', Panic site) => (s', Panic site)
    end.
Proof. intros H. unfold run_handler, HandleDNSRequest. rewrite H. reflexivity. Qed.

(** Every run on a packable message: a prefix of the upstreams is asked, and
    when the loop returns one of the tails follows. *)
Lemma run_handler_shape p r q :
  Pack W r = Ok q ->
  exists m, (m <= length (upstreamURLs p))%nat /\
    ((exists site,
        run_handler W p r
        = (after_calls q (take m (upstreamURLs p)) (mkState [] 0), Panic site))
     \/ (exists v' evs,
           upstream_loop W q (upstreamURLs p) (mkLoopVars None None "")
             (mkState [] 0)
           = (after_calls q (take m (upstreamURLs p)) (mkState [] 0), Val v')
           /\ Tail W p r v' evs
           /\ run_handler W p r
              = (mkState (sent q (take m (upstreamURLs p)) ++ evs) m, Val tt))).
Proof.
  intros Hpack. rewrite (run_handler_packed p r q Hpack).
  destruct (upstream_loop_asks_prefix W q (upstreamURLs p)
              (mkLoopVars None None "") (mkState [] 0)) as (m & Hm & Hfst).
  exists m. split; [exact Hm|].
  destruct (upstream_loop W q (upstreamURLs p) (mkLoopVars None None "")
              (mkState [] 0)) as [s' [v'|site]]; simpl in Hfst; subst s'.
  - right. destruct (after_loop_run p r v'
                       (after_calls q (take m (upstreamURLs p)) (mkState [] 0)))
      as (evs & Hrun & Htail).
    exists v', evs. split; [reflexivity|]. split; [exact Htail|].
    rewrite Hrun. simpl. rewrite length_take. do 2 f_equal. lia.
  - left. exists site. reflexivity.
Qed.

End HandlerFacts.

(** ** Three ways through the loop *)

Section LoopRuns.

Context {Msg : Type} (W : World Msg) (q : list byte).

(** After failing upstreams, the first one that answers 200 without error
    ends the loop and is selected. *)
Lemma upstream_loop_first_success pre u post resp v (s : State Msg) :
  all_fail W q (calls s) pre = true ->
  NewRequest_err W u = None ->
  client_Do W (calls s + length pre) (doh_request u q) = (Some resp, None) ->
  StatusCode resp = StatusOK ->
  upstream_loop W q (pre ++ u :: post) v s
  = (after_calls q (pre ++ [u]) s, Val (mkLoopVars (Some resp) None u)).
Proof.
  intros Hfail Hnew Hdo Hst.
  destruct (upstream_loop_skip W q pre (u :: post) v s Hfail) as (v1 & -> & _).
  rewrite upstream_loop_cons, Hnew. cbv zeta.
  change (calls (after_calls q pre s)) with (calls s + length pre)%nat.
  rewrite Hdo, Hst, Z.eqb_refl, after_calls_app. reflexivity.
Qed.

(** When every upstream fails the loop runs to the end of the list and
    selects nothing. *)
Lemma upstream_loop_exhausted urls v (s : State Msg) :
  all_fail W q (calls s) urls = true ->
  exists v1,
    upstream_loop W q urls v s = (after_calls q urls s, Val v1)
    /\ currentUpstream v1 = currentUpstream v.
Proof.
  intros Hfail.
  destruct (upstream_loop_skip W q urls [] v s Hfail) as (v1 & Heq & Hcu).
  exists v1. rewrite app_nil_r in Heq. rewrite Heq. split; [reflexivity | exact Hcu].
Qed.

(** An upstream whose request cannot be built stops the loop with a panic
    at [req.Header.Set]. *)
Lemma upstream_loop_unbuildable pre u post e v (s : State Msg) :
  all_fail W q (calls s) pre = true ->
  NewRequest_err W u = Some e ->
  upstream_loop W q (pre ++ u :: post) v s
  = (after_calls q pre s, Panic NilRequest_HeaderSet).
Proof.
  intros Hfail Hnew.
  destruct (upstream_loop_skip W q pre (u :: post) v s Hfail) as (v1 & -> & _).
  rewrite upstream_loop_cons, Hnew. reflexivity.
Qed.

End LoopRuns.

Lemma after_calls_start {Msg : Type} q urls :
  after_calls (Msg:=Msg) q urls (mkState [] 0)
  = mkState (sent q urls) (length urls).
Proof. reflexivity. Qed.

(** The run of the handler when every upstream fails. *)
Lemma run_handler_exhausted {Msg : Type} (W : World Msg) p r q :
  Pack W r = Ok q ->
  all_fail W q 0 (upstreamURLs p) = true ->
  run_handler W p r
  = (mkState (sent q (upstreamURLs p)
              ++ (if logRequests p
                  then [EvLog "Failed to query any upstream"] else []))
             (length (upstreamURLs p)),
     Val tt).
Proof.
  intros Hpack Hfail. rewrite (run_handler_packed W p r q Hpack).
  destruct (upstream_loop_exhausted W q (upstreamURLs p)
              (mkLoopVars None None "") (mkState [] 0) Hfail) as (v1 & -> & Hcu).
  simpl in Hcu. unfold after_loop. rewrite Hcu. simpl.
  destruct (logRequests p); go_unfold; simpl; [reflexivity|].
  now rewrite app_nil_r.
Qed.

(** The run of the handler up to the moment an upstream is selected. *)
Lemma run_handler_selected {Msg : Type} (W : World Msg) p r q pre u post resp :
  Pack W r = Ok q ->
  upstreamURLs p = pre ++ u :: post ->
  all_fail W q 0 pre = true ->
  NewRequest_err W u = None ->
  client_Do W (length pre) (doh_request u q) = (Some resp, None) ->
  StatusCode resp = StatusOK ->
  run_handler W p r
  = after_loop W p r (mkLoopVars (Some resp) None u)
      (mkState (sent q (pre ++ [u])) (length (pre ++ [u]))).
Proof.
  intros Hpack Hurls Hfail Hnew Hdo Hst.
  rewrite (run_handler_packed W p r q Hpack), Hurls.
  rewrite (upstream_loop_first_success W q pre u post resp); auto.
Qed.

(** Whatever the network does, the requests sent are those for a prefix of
    the configured list, in order. *)
Lemma attempts_prefix {Msg : Type} (W : World Msg) p r q :
  Pack W r = Ok q ->
  exists m, (m <= length (upstreamURLs p))%nat /\
    attempts (handler_trace W p r)
    = map (fun x => doh_request x q) (take m (upstreamURLs p)).
Proof.
  intros Hpack.
  destruct (run_handler_shape W p r q Hpack) as (m & Hm & Hshape).
  exists m. split; [exact Hm|]. unfold handler_trace.
  destruct Hshape as [(site & ->) | (v' & evs & _ & Htail & ->)]; simpl.
  - apply attempts_sent.
  - rewrite attempts_app, attempts_sent, (Tail_attempts W p r v' evs Htail).
    apply app_nil_r.
Qed.

(** The scenario of the specification: the first upstream times out, the
    second answers; the client gets that answer and one line is logged. *)
Example scenario_two_upstreams :
  run_handler Demo.world (Demo.proxy [Demo.url1; Demo.url2] true) Demo.query
  = (mkState
       (sent Demo.wire [Demo.url1; Demo.url2]
        ++ [EvLog "Successfully proxied request through  https://good.test/dns-query";
            EvWriteMsg "example.com A 1.2.3.4";
            EvClose Demo.ok_response])
       2,
     Val tt).
Proof. reflexivity. Qed.

(** * Properties of the forwarding engine *)

(** C1. Whatever the network does, the handler asks a prefix of the
    configured list, each entry once and in order.  When the upstreams before
    the [k]-th are built and fail, and the [k]-th answers 200 without error,
    the requests sent are exactly those for upstreams 1..k in order, the loop
    ends holding the [k]-th response with the [k]-th URL as current upstream
    (so nothing after it is contacted), and that response is the one the
    handler goes on to serve. *)
Theorem C1_first_success_ends_the_pass {Msg : Type} (W : World Msg) p r q :
  Pack W r = Ok q ->
  (exists m, (m <= length (upstreamURLs p))%nat /\
     attempts (handler_trace W p r)
     = map (fun x => doh_request x q) (take m (upstreamURLs p)))
  /\ forall pre u post resp,
       upstreamURLs p = pre ++ u :: post ->
       all_fail W q 0 pre = true ->
       NewRequest_err W u = None ->
       client_Do W (length pre) (doh_request u q) = (Some resp, None) ->
       StatusCode resp = StatusOK ->
       attempts (handler_trace W p r)
       = map (fun x => doh_request x q) (pre ++ [u])
       /\ upstream_loop W q (upstreamURLs p) (mkLoopVars None None "")
            (mkState [] 0)
          = (mkState (sent q (pre ++ [u])) (length (pre ++ [u])),
             Val (mkLoopVars (Some resp) None u))
       /\ (u <> "" ->
           run_handler W p r
           = serve_response W p r resp u
               (mkState (sent q (pre ++ [u])) (length (pre ++ [u])))).
Proof.
  intros Hpack. split.
  - exact (attempts_prefix W p r q Hpack).
  - intros pre u post resp Hurls Hfail Hnew Hdo Hst.
    pose proof (run_handler_selected W p r q pre u post resp
                  Hpack Hurls Hfail Hnew Hdo Hst) as Hrun.
    split; [|split].
    + unfold handler_trace. rewrite Hrun.
      destruct (after_loop_run W p r (mkLoopVars (Some resp) None u)
                  (mkState (sent q (pre ++ [u])) (length (pre ++ [u]))))
        as (evs & -> & Htail).
      simpl. rewrite attempts_app, attempts_sent, (Tail_attempts _ _ _ _ _ Htail).
      apply app_nil_r.
    + rewrite Hurls.
      rewrite (upstream_loop_first_success W q pre u post resp); auto.
    + intros Hne. rewrite Hrun. unfold after_loop. simpl.
      destruct (decide (u = "")) as [Heq|_]; [contradiction | reflexivity].
Qed.

Lemma C1_first_success_witness :
  map URL (attempts (handler_trace Demo.world Demo.three Demo.query))
  = [Demo.url1; Demo.url2]
  /\ fst (upstream_loop Demo.world Demo.wire (upstreamURLs Demo.three)
            (mkLoopVars None None "") (mkState [] 0))
     = mkState (sent Demo.wire [Demo.url1; Demo.url2]) 2.
Proof.
  destruct (C1_first_success_ends_the_pass Demo.world Demo.three Demo.query
              Demo.wire eq_refl) as [_ H].
  destruct (H [Demo.url1] Demo.url2 [Demo.url3] Demo.ok_response
              eq_refl eq_refl eq_refl eq_refl eq_refl) as (Ha & Hl & _).
  split.
  - rewrite Ha. reflexivity.
  - rewrite Hl. reflexivity.
Defined.

(** C2. When every configured upstream fails, the handler logs "Failed to
    query any upstream" if logging is on and returns: all upstreams were
    asked once, and nothing at all is written to the client. *)
Theorem C2_exhaustion_leaves_client_unanswered {Msg : Type} (W : World Msg)
    p r q :
  Pack W r = Ok q ->
  all_fail W q 0 (upstreamURLs p) = true ->
  snd (run_handler W p r) = Val tt
  /\ attempts (handler_trace W p r)
     = map (fun x => doh_request x q) (upstreamURLs p)
  /\ log_lines (handler_trace W p r)
     = (if logRequests p then ["Failed to query any upstream"] else [])
  /\ answers (handler_trace W p r) = [].
Proof.
  intros Hpack Hfail. unfold handler_trace.
  rewrite (run_handler_exhausted W p r q Hpack Hfail). simpl.
  rewrite attempts_app, log_lines_app, answers_app.
  rewrite attempts_sent, log_lines_sent, answers_sent.
  destruct (logRequests p); simpl; rewrite ?app_nil_r; auto.
Qed.

Lemma C2_exhaustion_witness :
  log_lines (handler_trace Demo.world_503 Demo.three Demo.query)
  = ["Failed to query any upstream"]
  /\ answers (handler_trace Demo.world_503 Demo.three Demo.query) = [].
Proof.
  destruct (C2_exhaustion_leaves_client_unanswered Demo.world_503 Demo.three
              Demo.query Demo.wire eq_refl eq_refl) as (_ & _ & Hl & Ha).
  split; [exact Hl | exact Ha].
Defined.

(** C3. When the inbound message does not pack, the handler logs the error
    and returns: no upstream is contacted, and nothing is written to the
    client. *)
Theorem C3_pack_failure_contacts_nobody {Msg : Type} (W : World Msg) p r e :
  Pack W r = Err e ->
  run_handler W p r
  = (mkState [EvLog ("Failed to pack DNS request: " +:+ e)] 0, Val tt)
  /\ attempts (handler_trace W p r) = []
  /\ answers (handler_trace W p r) = [].
Proof.
  intros Hpack. unfold handler_trace.
  rewrite (run_handler_pack_error W p r e Hpack). auto.
Qed.

Lemma C3_pack_failure_witness :
  attempts (handler_trace Demo.world Demo.three "unpackable") = []
  /\ answers (handler_trace Demo.world Demo.three "unpackable") = [].
Proof.
  destruct (C3_pack_failure_contacts_nobody Demo.world Demo.three
              "unpackable" "dns: bad rdata" eq_refl) as (_ & Ha & Hn).
  split; [exact Ha | exact Hn].
Defined.

(** Every run that returns: either all upstreams were asked and failed, or
    the first upstream that did not fail was selected; then a tail follows. *)
Lemma run_handler_returns {Msg : Type} (W : World Msg) p r q :
  Pack W r = Ok q ->
  snd (run_handler W p r) = Val tt ->
  exists v' asked evs,
    upstream_loop W q (upstreamURLs p) (mkLoopVars None None "") (mkState [] 0)
    = (mkState (sent q asked) (length asked), Val v')
    /\ Tail W p r v' evs
    /\ run_handler W p r = (mkState (sent q asked ++ evs) (length asked), Val tt)
    /\ ((currentUpstream v' = ""
         /\ asked = upstreamURLs p
         /\ all_fail W q 0 (upstreamURLs p) = true)
        \/ (exists pre u post resp,
              upstreamURLs p = pre ++ u :: post
              /\ asked = pre ++ [u]
              /\ all_fail W q 0 pre = true
              /\ NewRequest_err W u = None
              /\ client_Do W (length pre) (doh_request u q) = (Some resp, None)
              /\ StatusCode resp = StatusOK
              /\ v' = mkLoopVars (Some resp) None u)).
Proof.
  intros Hpack Hret. rewrite (run_handler_packed W p r q Hpack) in Hret |- *.
  destruct (upstream_loop W q (upstreamURLs p) (mkLoopVars None None "")
              (mkState [] 0)) as [s' [v'|site]] eqn:Hloop; [|discriminate].
  destruct (after_loop_run W p r v' s') as (evs & Hafter & Htail).
  destruct (upstream_loop_returns W q _ _ _ _ _ Hloop)
    as [(Hcu & Hall & ->) | (pre & u & post & resp & Hurls & Hall & Hnew & Hdo & Hst & Hv & ->)].
  - exists v', (upstreamURLs p), evs. rewrite Hafter.
    split; [reflexivity|]. split; [exact Htail|]. split; [reflexivity|].
    left. auto.
  - exists v', (pre ++ [u]), evs. rewrite Hafter.
    split; [reflexivity|]. split; [exact Htail|]. split; [reflexivity|].
    right. exists pre, u, post, resp. auto 10.
Qed.

(** C4. When the selected upstream's body does not unpack, the handler logs
    the error, writes the generic failure answer and returns without a panic.
    The client is answered here, whereas a run in which every upstream fails
    writes it nothing: the two cases are not handled alike. *)
Theorem C4_unpack_failure_answers_exhaustion_does_not {Msg : Type}
    (W : World Msg) p r q pre u post resp e :
  Pack W r = Ok q ->
  upstreamURLs p = pre ++ u :: post ->
  all_fail W q 0 pre = true ->
  NewRequest_err W u = None ->
  client_Do W (length pre) (doh_request u q) = (Some resp, None) ->
  StatusCode resp = StatusOK ->
  u <> "" ->
  read_err (Body resp) = None ->
  Unpack W (data (Body resp)) = Err e ->
  run_handler W p r
  = (mkState (sent q (pre ++ [u])
              ++ [EvLog ("Failed to unpack DNS response: " +:+ e);
                  EvHandleFailed r; EvClose resp])
             (length (pre ++ [u])),
     Val tt)
  /\ answers (handler_trace W p r) = [Failure r]
  /\ forall (W' : World Msg) q',
       Pack W' r = Ok q' ->
       all_fail W' q' 0 (upstreamURLs p) = true ->
       answers (handler_trace W' p r) = []
       /\ answers (handler_trace W' p r) <> answers (handler_trace W p r).
Proof.
  intros Hpack Hurls Hfail Hnew Hdo Hst Hne Hread Hun.
  assert (Hrun : run_handler W p r
    = (mkState (sent q (pre ++ [u])
                ++ [EvLog ("Failed to unpack DNS response: " +:+ e);
                    EvHandleFailed r; EvClose resp])
               (length (pre ++ [u])), Val tt)).
  { rewrite (run_handler_selected W p r q pre u post resp); auto.
    unfold after_loop. simpl.
    destruct (decide (u = "")) as [Heq|_]; [contradiction|].
    unfold serve_response, io_ReadAll. rewrite Hread, Hun.
    go_unfold. simpl. rewrite <- ?app_assoc. reflexivity. }
  assert (Hans : answers (handler_trace W p r) = [Failure r]).
  { unfold handler_trace. rewrite Hrun. simpl.
    rewrite answers_app, answers_sent. reflexivity. }
  split; [exact Hrun|]. split; [exact Hans|].
  intros W' q' Hpack' Hfail'.
  assert (Hnone : answers (handler_trace W' p r) = []).
  { unfold handler_trace. rewrite (run_handler_exhausted W' p r q' Hpack' Hfail').
    simpl. rewrite answers_app, answers_sent.
    destruct (logRequests p); reflexivity. }
  split; [exact Hnone|]. rewrite Hnone, Hans. discriminate.
Qed.

Lemma C4_unpack_failure_witness :
  answers (handler_trace Demo.world_garbage Demo.three Demo.query)
  = [Failure Demo.query]
  /\ answers (handler_trace Demo.world_503 Demo.three Demo.query) = [].
Proof.
  destruct (C4_unpack_failure_answers_exhaustion_does_not
              Demo.world_garbage Demo.three Demo.query Demo.wire
              [] Demo.url1 [Demo.url2; Demo.url3] Demo.garbage_response
              "dns: overflow unpacking uint16"
              eq_refl eq_refl eq_refl eq_refl eq_refl eq_refl
              ltac:(discriminate) eq_refl eq_refl) as (_ & Ha & Hb).
  destruct (Hb Demo.world_503 Demo.wire eq_refl eq_refl) as (Hn & _).
  split; [exact Ha | exact Hn].
Defined.

(** C5, as stated, fails: with request logging off, an upstream body that
    does not unpack still puts a line in the log. *)
Lemma C5_logging_off_still_logs :
  logRequests Demo.quiet = false
  /\ log_lines (handler_trace Demo.world_garbage Demo.quiet Demo.query)
     = ["Failed to unpack DNS response: dns: overflow unpacking uint16"]
  /\ log_lines (handler_trace Demo.world_garbage Demo.quiet Demo.query) <> [].
Proof. split; [reflexivity|]. split; [reflexivity|]. discriminate. Qed.

(** The log of a run that returns, read off its answers: one line with
    logging on; the line naming the upstream, or nothing, beside an upstream's
    message; nothing, with logging off, beside no answer on a packable
    message; with logging off, never a line other than those of a pack, read
    or unpack failure. *)
Lemma returning_run_log_lines {Msg : Type} (W : World Msg) p r :
  snd (run_handler W p r) = Val tt ->
  (logRequests p = true ->
   exists line, log_lines (handler_trace W p r) = [line])
  /\ (forall m, Reply m ∈ answers (handler_trace W p r) ->
      exists u, u ∈ upstreamURLs p
        /\ URL <$> last (attempts (handler_trace W p r)) = Some u
        /\ log_lines (handler_trace W p r)
           = if logRequests p
             then ["Successfully proxied request through  " +:+ u] else [])
  /\ (logRequests p = false ->
      forall q, Pack W r = Ok q ->
      answers (handler_trace W p r) = [] ->
      log_lines (handler_trace W p r) = [])
  /\ (logRequests p = false ->
      forall line, line ∈ log_lines (handler_trace W p r) ->
      exists e, line = "Failed to pack DNS request: " +:+ e
             \/ line = "Failed to read response from upstream: " +:+ e
             \/ line = "Failed to unpack DNS response: " +:+ e).
Proof.
  intros Hret. destruct (Pack W r) as [q|e] eqn:Hpack.
  - destruct (run_handler_returns W p r q Hpack Hret)
      as (v' & asked & evs & Hloop & Htail & Hrun & Hcases).
    unfold handler_trace. rewrite Hrun. simpl.
    rewrite log_lines_app, log_lines_sent, answers_app, answers_sent,
      attempts_app, attempts_sent, (Tail_attempts W p r v' evs Htail), app_nil_r.
    simpl.
    destruct Htail as [Hcu | Hcu Hresp | resp e Hcu Hresp Hread
                      | resp e Hcu Hresp Hread Hun | resp m Hcu Hresp Hread Hun].
    + destruct (logRequests p); simpl.
      * split; [eauto|]. split; [intros m Hm; inversion Hm|].
        split; [discriminate|]. discriminate.
      * split; [discriminate|]. split; [intros m Hm; inversion Hm|].
        split; [reflexivity|]. intros _ line Hl. inversion Hl.
    + exfalso. destruct Hcases as [(Hcu' & _) | (pre & u & post & resp & _ & _ & _ & _ & _ & _ & ->)];
        [contradiction | discriminate].
    + simpl. split; [eauto|].
      split. { intros m Hm. apply list_elem_of_singleton in Hm. discriminate. }
      split; [discriminate|].
      intros _ line Hl. apply list_elem_of_singleton in Hl. exists e. auto.
    + simpl. split; [eauto|].
      split. { intros m Hm. apply list_elem_of_singleton in Hm. discriminate. }
      split; [discriminate|].
      intros _ line Hl. apply list_elem_of_singleton in Hl. exists e. auto.
    + destruct Hcases as [(Hcu' & _) | (pre & u & post & resp' & Hurls & -> & _ & _ & _ & _ & ->)];
        [contradiction|].
      simpl in *. rewrite log_lines_app, answers_app.
      split. { intros ->. simpl. eauto. }
      split. { intros m' _. exists u. rewrite Hurls.
               split; [apply elem_of_app; right; apply list_elem_of_here|].
               split; [rewrite map_app; simpl; rewrite last_snoc; reflexivity|].
               destruct (logRequests p); reflexivity. }
      split. { intros ->. simpl. discriminate. }
      intros ->. simpl. intros line Hl. inversion Hl.
  - unfold handler_trace. rewrite (run_handler_pack_error W p r e Hpack). simpl.
    split; [eauto|].
    split. { intros m Hm. inversion Hm. }
    split; [discriminate|].
    intros _ line Hl. apply list_elem_of_singleton in Hl. exists e. auto.
Qed.


(** The log lines of lines 79-110, by cases on the loop variables. *)
Lemma after_loop_log_lines {Msg : Type} (W : World Msg) p r v
    (s : State Msg) :
  log_lines (trace (fst (after_loop W p r v s)))
  = log_lines (trace s)
    ++ (if decide (currentUpstream v = "")
        then (if logRequests p then ["Failed to query any upstream"] else [])
        else match response v with
             | None => ["All upstream DoH servers failed"]
             | Some resp =>
                 match read_err (Body resp) with
                 | Some e => ["Failed to read response from upstream: " +:+ e]
                 | None =>
                     match Unpack W (data (Body resp)) with
                     | Err e => ["Failed to unpack DNS response: " +:+ e]
                     | Ok _ =>
                         if logRequests p
                         then ["Successfully proxied request through  "
                               +:+ currentUpstream v]
                         else []
                     end
                 end
             end).
Proof.
  unfold after_loop, serve_response, io_ReadAll.
  destruct (decide (currentUpstream v = "")) as [_|_].
  - destruct (logRequests p); go_unfold; simpl;
      rewrite ?log_lines_app, ?app_nil_r; reflexivity.
  - destruct (response v) as [resp|].
    + destruct (read_err (Body resp)) as [e|].
      * go_unfold. simpl. rewrite !log_lines_app. simpl.
        rewrite ?app_nil_r. reflexivity.
      * destruct (Unpack W (data (Body resp))) as [m|e].
        -- destruct (logRequests p); go_unfold; simpl;
             rewrite !log_lines_app; simpl; rewrite ?app_nil_r; reflexivity.
        -- go_unfold. simpl. rewrite !log_lines_app. simpl.
           rewrite ?app_nil_r. reflexivity.
    + go_unfold. simpl. rewrite !log_lines_app. simpl.
      rewrite ?app_nil_r. reflexivity.
Qed.

(** C5, amended.  For every run that returns, the log is fixed by how the
    request ends.  A pack failure, a body-read failure and an unpack failure
    each write their one line whether logging is on or off.  When every
    upstream fails (or the upstream accepted has the empty URL) the line
    "Failed to query any upstream" is written with logging on and nothing
    with logging off.  On success the line naming the serving upstream is
    written with logging on and nothing with logging off.  Hence: with
    logging on, exactly one line is logged; a run that answers the client
    with the upstream's message logs the line naming the upstream asked last
    (logging on) or nothing (logging off); with logging off, a run on a
    packable message that sends the client no answer logs nothing, and the
    only lines ever logged are those of a pack, body-read or unpack
    failure. *)
Theorem C5_log_lines_by_flag {Msg : Type} (W : World Msg) p r :
  snd (run_handler W p r) = Val tt ->
  (logRequests p = true ->
   exists line, log_lines (handler_trace W p r) = [line])
  /\ (forall m, Reply m ∈ answers (handler_trace W p r) ->
      exists u, u ∈ upstreamURLs p
        /\ URL <$> last (attempts (handler_trace W p r)) = Some u
        /\ log_lines (handler_trace W p r)
           = if logRequests p
             then ["Successfully proxied request through  " +:+ u] else [])
  /\ (logRequests p = false ->
      forall q, Pack W r = Ok q ->
      answers (handler_trace W p r) = [] ->
      log_lines (handler_trace W p r) = [])
  /\ (logRequests p = false ->
      forall line, line ∈ log_lines (handler_trace W p r) ->
      exists e, line = "Failed to pack DNS request: " +:+ e
             \/ line = "Failed to read response from upstream: " +:+ e
             \/ line = "Failed to unpack DNS response: " +:+ e)
  /\ (forall e,
        Pack W r = Err e ->
        log_lines (handler_trace W p r)
        = ["Failed to pack DNS request: " +:+ e])
  /\ (forall q,
        Pack W r = Ok q ->
        all_fail W q 0 (upstreamURLs p) = true ->
        log_lines (handler_trace W p r)
        = if logRequests p then ["Failed to query any upstream"] else [])
  /\ (forall q pre u post resp,
        Pack W r = Ok q ->
        upstreamURLs p = pre ++ u :: post ->
        all_fail W q 0 pre = true ->
        NewRequest_err W u = None ->
        client_Do W (length pre) (doh_request u q) = (Some resp, None) ->
        StatusCode resp = StatusOK ->
        log_lines (handler_trace W p r)
        = if decide (u = "")
          then (if logRequests p then ["Failed to query any upstream"] else [])
          else match read_err (Body resp) with
               | Some e => ["Failed to read response from upstream: " +:+ e]
               | None =>
                   match Unpack W (data (Body resp)) with
                   | Err e => ["Failed to unpack DNS response: " +:+ e]
                   | Ok _ =>
                       if logRequests p
                       then ["Successfully proxied request through  " +:+ u]
                       else []
                   end
               end).
Proof.
  intros Hret.
  destruct (returning_run_log_lines W p r Hret) as (H1 & H2 & H3 & H4).
  split; [exact H1|]. split; [exact H2|]. split; [exact H3|].
  split; [exact H4|]. split; [|split].
  - intros e Hpack. unfold handler_trace.
    rewrite (run_handler_pack_error W p r e Hpack). reflexivity.
  - intros q Hpack Hfail. unfold handler_trace.
    rewrite (run_handler_exhausted W p r q Hpack Hfail). simpl.
    rewrite log_lines_app, log_lines_sent.
    destruct (logRequests p); reflexivity.
  - intros q pre u post resp Hpack Hurls Hfail Hnew Hdo Hst.
    unfold handler_trace.
    rewrite (run_handler_selected W p r q pre u post resp
               Hpack Hurls Hfail Hnew Hdo Hst).
    rewrite after_loop_log_lines. simpl. rewrite log_lines_sent. reflexivity.
Qed.

Lemma C5_log_lines_witness :
  snd (run_handler Demo.world_garbage Demo.quiet Demo.query) = Val tt
  /\ log_lines (handler_trace Demo.world_garbage Demo.quiet Demo.query)
     = ["Failed to unpack DNS response: dns: overflow unpacking uint16"]
  /\ exists line,
       log_lines (handler_trace Demo.world Demo.three Demo.query) = [line].
Proof.
  split; [reflexivity|]. split.
  - destruct (C5_log_lines_by_flag Demo.world_garbage Demo.quiet Demo.query
                eq_refl) as (_ & _ & _ & _ & _ & _ & Hsel).
    exact (Hsel Demo.wire [] Demo.url1 [Demo.url2; Demo.url3]
             Demo.garbage_response eq_refl eq_refl eq_refl eq_refl eq_refl
             eq_refl).
  - destruct (C5_log_lines_by_flag Demo.world Demo.three Demo.query eq_refl)
      as (Hone & _).
    apply Hone. reflexivity.
Defined.

(** The request built for an upstream carries both DoH headers. *)
Lemma doh_request_headers u q :
  Header_Get (ReqHeader (doh_request u q)) "Content-Type"
  = "application/dns-message"
  /\ Header_Get (ReqHeader (doh_request u q)) "Accept"
     = "application/dns-message".
Proof.
  unfold doh_request, Header_Get, Header_Set. simpl. split.
  - rewrite lookup_insert_ne by discriminate.
    rewrite lookup_insert_eq. reflexivity.
  - rewrite lookup_insert_eq. reflexivity.
Qed.

(** C6. Every request the handler sends is a POST to one of the configured
    URLs, its body is the packed query, and its Content-Type and Accept
    headers are both application/dns-message.  When the loop returns, either
    every upstream failed and none is selected, or the selected response is
    the one of a call that returned no error and status 200; the client is
    sent an upstream's message only out of such a response. *)
Theorem C6_post_with_doh_headers_accept_on_200 {Msg : Type} (W : World Msg)
    p r :
  Forall (fun rq =>
            Method rq = "POST"
            /\ URL rq ∈ upstreamURLs p
            /\ Pack W r = Ok (ReqBody rq)
            /\ Header_Get (ReqHeader rq) "Content-Type"
               = "application/dns-message"
            /\ Header_Get (ReqHeader rq) "Accept" = "application/dns-message")
         (attempts (handler_trace W p r))
  /\ (forall q s' v',
        Pack W r = Ok q ->
        upstream_loop W q (upstreamURLs p) (mkLoopVars None None "")
          (mkState [] 0) = (s', Val v') ->
        (currentUpstream v' = "" /\ all_fail W q 0 (upstreamURLs p) = true)
        \/ exists pre u post resp,
             upstreamURLs p = pre ++ u :: post
             /\ client_Do W (length pre) (doh_request u q) = (Some resp, None)
             /\ StatusCode resp = StatusOK
             /\ v' = mkLoopVars (Some resp) None u)
  /\ (forall m, Reply m ∈ answers (handler_trace W p r) ->
      exists q pre u post resp,
        Pack W r = Ok q
        /\ upstreamURLs p = pre ++ u :: post
        /\ client_Do W (length pre) (doh_request u q) = (Some resp, None)
        /\ StatusCode resp = StatusOK
        /\ Unpack W (data (Body resp)) = Ok m).
Proof.
  split; [|split].
  - destruct (Pack W r) as [q|e] eqn:Hpack.
    + destruct (attempts_prefix W p r q Hpack) as (m & _ & ->).
      apply Forall_forall. intros rq Hin.
      apply list_elem_of_fmap in Hin as (u & -> & Hu).
      destruct (doh_request_headers u q) as [Hct Hacc].
      split; [reflexivity|].
      split; [simpl; eapply subseteq_take; exact Hu|].
      split; [reflexivity|]. split; [exact Hct | exact Hacc].
    + unfold handler_trace. rewrite (run_handler_pack_error W p r e Hpack).
      simpl. constructor.
  - intros q s' v' Hpack Hloop.
    destruct (upstream_loop_returns W q _ _ _ _ _ Hloop)
      as [(Hcu & Hall & _) | (pre & u & post & resp & Hurls & _ & _ & Hdo & Hst & Hv & _)].
    + left. simpl in Hcu. auto.
    + right. exists pre, u, post, resp. simpl in Hdo. auto.
  - intros m Hm. destruct (Pack W r) as [q|e] eqn:Hpack.
    + unfold handler_trace in Hm.
      destruct (run_handler_shape W p r q Hpack)
        as (k & _ & [(site & Hrun) | (v' & evs & Hloop & Htail & Hrun)]);
        rewrite Hrun in Hm; simpl in Hm.
      { rewrite answers_sent in Hm. inversion Hm. }
      rewrite answers_app, answers_sent in Hm. simpl in Hm.
      destruct (upstream_loop_returns W q _ _ _ _ _ Hloop)
        as [(Hcu & _) | (pre & u & post & resp & Hurls & _ & _ & Hdo & Hst & Hv & _)].
      * simpl in Hcu.
        destruct Htail; try contradiction.
        destruct (logRequests p); inversion Hm.
      * exists q, pre, u, post, resp. simpl in Hdo.
        split; [reflexivity|]. split; [exact Hurls|].
        split; [exact Hdo|]. split; [exact Hst|].
        subst v'. simpl in *.
        destruct Htail as [Hcu | Hcu Hresp | resp0 e Hcu Hresp Hread
                          | resp0 e Hcu Hresp Hread Hun
                          | resp0 m0 Hcu Hresp Hread Hun]; simpl in *.
        -- destruct (logRequests p); inversion Hm.
        -- discriminate.
        -- apply list_elem_of_singleton in Hm. discriminate.
        -- apply list_elem_of_singleton in Hm. discriminate.
        -- injection Hresp as <-.
           rewrite answers_app in Hm.
           assert (Hm' : Reply m ∈ [Reply m0]).
           { destruct (logRequests p); exact Hm. }
           apply list_elem_of_singleton in Hm'. injection Hm' as ->. exact Hun.
    + unfold handler_trace in Hm.
      rewrite (run_handler_pack_error W p r e Hpack) in Hm. inversion Hm.
Qed.

Lemma C6_post_with_doh_headers_witness :
  Forall (fun rq => Method rq = "POST"
                    /\ Header_Get (ReqHeader rq) "Accept"
                       = "application/dns-message")
         (attempts (handler_trace Demo.world Demo.three Demo.query))
  /\ exists resp,
       StatusCode resp = StatusOK
       /\ Unpack Demo.world (data (Body resp)) = Ok "example.com A 1.2.3.4".
Proof.
  destruct (C6_post_with_doh_headers_accept_on_200 Demo.world Demo.three
              Demo.query) as (Hreq & _ & Hrep).
  split.
  - eapply Forall_impl; [exact Hreq|].
    intros rq (Hm & _ & _ & _ & Hacc). split; [exact Hm | exact Hacc].
  - destruct (Hrep "example.com A 1.2.3.4")
      as (q & pre & u & post & resp & _ & _ & _ & Hst & Hun).
    + change (Reply "example.com A 1.2.3.4"
              ∈ [Reply (Msg:=string) "example.com A 1.2.3.4"]).
      apply list_elem_of_here.
    + exists resp. split; [exact Hst | exact Hun].
Defined.

(** C9. When the loop of a run returns with a non-empty current upstream,
    the response it holds is not nil.  So no run ever logs "All upstream DoH
    servers failed": the branch under [response == nil] is dead.  When every
    upstream fails the handler returns through the branch before it, and the
    client is sent nothing. *)
Theorem C9_nil_response_branch_is_dead {Msg : Type} (W : World Msg) p r :
  (forall q s' v',
     Pack W r = Ok q ->
     upstream_loop W q (upstreamURLs p) (mkLoopVars None None "")
       (mkState [] 0) = (s', Val v') ->
     currentUpstream v' <> "" ->
     is_Some (response v'))
  /\ (EvLog "All upstream DoH servers failed" ∉ handler_trace W p r)
  /\ (forall q,
        Pack W r = Ok q ->
        all_fail W q 0 (upstreamURLs p) = true ->
        handler_trace W p r
        = sent q (upstreamURLs p)
          ++ (if logRequests p
              then [EvLog "Failed to query any upstream"] else [])
        /\ answers (handler_trace W p r) = []).
Proof.
  assert (Hinv : forall q s' v',
     upstream_loop W q (upstreamURLs p) (mkLoopVars None None "")
       (mkState [] 0) = (s', Val v') ->
     currentUpstream v' <> "" -> is_Some (response v')).
  { intros q s' v' Hloop Hcu.
    destruct (upstream_loop_returns W q _ _ _ _ _ Hloop)
      as [(Hcu' & _) | (pre & u & post & resp & _ & _ & _ & _ & _ & -> & _)].
    - simpl in Hcu'. contradiction.
    - simpl. eauto. }
  split; [|split].
  - intros q s' v' _. apply Hinv.
  - unfold handler_trace. destruct (Pack W r) as [q|e] eqn:Hpack.
    + assert (Hsent : forall l,
        EvLog "All upstream DoH servers failed" ∉ sent (Msg:=Msg) q l).
      { intros l Hin. apply list_elem_of_fmap in Hin as (u & Heq & _).
        discriminate. }
      destruct (run_handler_shape W p r q Hpack)
        as (m & _ & [(site & ->) | (v' & evs & Hloop & Htail & ->)]); simpl.
      { apply Hsent. }
      intros Hin. apply elem_of_app in Hin as [Hin|Hin]; [exact (Hsent _ Hin)|].
      destruct Htail as [Hcu | Hcu Hresp | resp e Hcu Hresp Hread
                        | resp e Hcu Hresp Hread Hun
                        | resp m0 Hcu Hresp Hread Hun].
      * destruct (logRequests p); inversion Hin as [|? ? ? Hin']; subst;
          inversion Hin'.
      * destruct (Hinv q _ v' Hloop Hcu) as [resp Hsome]. congruence.
      * inversion Hin as [|? ? ? Hin']; subst.
        inversion Hin' as [|? ? ? Hin'']; subst.
        inversion Hin'' as [|? ? ? Hin3]; subst. inversion Hin3.
      * inversion Hin as [|? ? ? Hin']; subst.
        inversion Hin' as [|? ? ? Hin'']; subst.
        inversion Hin'' as [|? ? ? Hin3]; subst. inversion Hin3.
      * destruct (logRequests p); simpl in Hin.
        -- inversion Hin as [|? ? ? Hin']; subst.
           inversion Hin' as [|? ? ? Hin'']; subst.
           inversion Hin'' as [|? ? ? Hin3]; subst. inversion Hin3.
        -- inversion Hin as [|? ? ? Hin']; subst.
           inversion Hin' as [|? ? ? Hin'']; subst. inversion Hin''.
    + rewrite (run_handler_pack_error W p r e Hpack). simpl.
      intros Hin. inversion Hin as [|? ? ? Hin']; subst. inversion Hin'.
  - intros q Hpack Hfail. unfold handler_trace.
    rewrite (run_handler_exhausted W p r q Hpack Hfail). simpl.
    split; [reflexivity|].
    rewrite answers_app, answers_sent. destruct (logRequests p); reflexivity.
Qed.

Lemma C9_nil_response_branch_witness :
  answers (handler_trace Demo.world_503 Demo.three Demo.query) = []
  /\ handler_trace Demo.world_503 Demo.three Demo.query
     = sent Demo.wire [Demo.url1; Demo.url2; Demo.url3]
       ++ [EvLog "Failed to query any upstream"].
Proof.
  destruct (C9_nil_response_branch_is_dead Demo.world_503 Demo.three
              Demo.query) as (_ & _ & Hex).
  destruct (Hex Demo.wire eq_refl eq_refl) as (Htr & Hans).
  split; [exact Hans | exact Htr].
Defined.

(** C10, as stated, fails: when the request for an upstream cannot be built
    the run panics at [req.Header.Set], not inside the HTTP client, which is
    never called for that upstream. *)
Lemma C10_client_is_not_called_with_nil :
  NewRequest_err Demo.world Demo.bad_url
  = Some "parse ://: missing protocol scheme"
  /\ run_handler Demo.world Demo.broken Demo.query
     = (mkState (sent Demo.wire [Demo.url1]) 1, Panic NilRequest_HeaderSet)
  /\ snd (run_handler Demo.world Demo.broken Demo.query) <> Panic NilRequest_Do
  /\ map URL (attempts (handler_trace Demo.world Demo.broken Demo.query))
     = [Demo.url1].
Proof.
  split; [reflexivity|]. split; [reflexivity|].
  split; [discriminate | reflexivity].
Qed.

(** C10, amended.  When the upstreams before it fail and the request for an
    upstream cannot be built, the handler drops the construction error and
    panics on the nil request at [req.Header.Set]: the HTTP client is not
    called for that upstream, no later upstream is asked, nothing is logged
    and the client is sent nothing. *)
Theorem C10_unbuildable_request_panics_at_header_set {Msg : Type}
    (W : World Msg) p r q pre u post e :
  Pack W r = Ok q ->
  upstreamURLs p = pre ++ u :: post ->
  all_fail W q 0 pre = true ->
  NewRequest_err W u = Some e ->
  run_handler W p r
  = (mkState (sent q pre) (length pre), Panic NilRequest_HeaderSet)
  /\ attempts (handler_trace W p r) = map (fun x => doh_request x q) pre
  /\ log_lines (handler_trace W p r) = []
  /\ answers (handler_trace W p r) = [].
Proof.
  intros Hpack Hurls Hfail Hnew.
  assert (Hrun : run_handler W p r
    = (mkState (sent q pre) (length pre), Panic NilRequest_HeaderSet)).
  { rewrite (run_handler_packed W p r q Hpack), Hurls.
    rewrite (upstream_loop_unbuildable W q pre u post e); auto. }
  unfold handler_trace. rewrite Hrun. simpl.
  rewrite attempts_sent, log_lines_sent, answers_sent. auto.
Qed.

Lemma C10_unbuildable_request_witness :
  run_handler Demo.world Demo.broken Demo.query
  = (mkState (sent Demo.wire [Demo.url1]) 1, Panic NilRequest_HeaderSet).
Proof.
  destruct (C10_unbuildable_request_panics_at_header_set Demo.world
              Demo.broken Demo.query Demo.wire [Demo.url1] Demo.bad_url
              [Demo.url2] "parse ://: missing protocol scheme"
              eq_refl eq_refl eq_refl eq_refl) as (Hrun & _).
  exact Hrun.
Defined.

(** ** Startup *)

Lemma fold_add_upstream us ev acc :
  fold_left add_upstream us (ev, acc)
  = (ev ++ map (fun v => SLog ("Added " +:+ v +:+ " as an upstream DoH server"))
             us,
     acc ++ us).
Proof.
  revert ev acc. induction us as [|u us IH]; intros ev acc; simpl.
  - now rewrite !app_nil_r.
  - unfold add_upstream at 2. simpl. rewrite IH, <- !app_assoc. reflexivity.
Qed.

Lemma started_app ev1 ev2 : started (ev1 ++ ev2) = started ev1 ++ started ev2.
Proof. apply omap_app. Qed.

Lemma started_added us :
  started (map (fun v => SLog ("Added " +:+ v +:+ " as an upstream DoH server"))
               us) = [].
Proof. induction us as [|u us IH]; simpl; [reflexivity | exact IH]. Qed.

(** [main] on a command line without [-u]. *)
Lemma main_without_upstream l p tcp udp lg :
  main (mkFlags l p tcp udp lg []) = ([SPrintDefaults], Exit 1).
Proof. reflexivity. Qed.

(** The listeners [main] starts on a command line with at least one [-u]. *)
Lemma main_started f u us :
  flag_u f = u :: us ->
  started (fst (main f))
  = started (Run_loop (NewDoHProxy (flag_l f) (flag_p f) (flag_u f)
                         (select_protocols (flag_tcp f) (flag_udp f))
                         (flag_log f))
               (select_protocols (flag_tcp f) (flag_udp f))).
Proof.
  intros Hu. unfold main. rewrite fold_add_upstream.
  cbn [app]. rewrite Hu. cbn [length Nat.eqb]. unfold Run. cbn [fst].
  destruct (flag_log f);
    rewrite ?started_app, started_added; reflexivity.
Qed.

Lemma Run_loop_proxy p protos srv :
  srv ∈ started (Run_loop p protos) -> Proxy srv = p.
Proof.
  induction protos as [|proto rest IH]; simpl; intros Hin.
  - inversion Hin.
  - rewrite started_app in Hin. apply elem_of_app in Hin as [Hin|Hin]; [|auto].
    destruct (proto =? TCP); [|destruct (proto =? UDP)]; simpl in Hin.
    + apply list_elem_of_singleton in Hin. now subst.
    + apply list_elem_of_singleton in Hin. now subst.
    + inversion Hin.
Qed.

(** C7. The protocol list is never empty, and without [-tcp] and [-udp] it
    is TCP then UDP, so that [main] starts a TCP and a UDP listener; with only
    [-udp] it starts the UDP listener and no TCP one, with only [-tcp] the
    TCP listener and no UDP one. *)
Theorem C7_protocols_default_to_both :
  (forall tcp udp, select_protocols tcp udp <> [])
  /\ select_protocols false false = [TCP; UDP]
  /\ (forall l p lg u us,
        map Net (started (fst (main (mkFlags l p false false lg (u :: us)))))
        = ["tcp"; "udp"])
  /\ (forall l p lg us,
        Forall (fun srv => Net srv <> "tcp")
               (started (fst (main (mkFlags l p false true lg us)))))
  /\ (forall l p lg u us,
        map Net (started (fst (main (mkFlags l p false true lg (u :: us)))))
        = ["udp"])
  /\ (forall l p lg us,
        Forall (fun srv => Net srv <> "udp")
               (started (fst (main (mkFlags l p true false lg us)))))
  /\ (forall l p lg u us,
        map Net (started (fst (main (mkFlags l p true false lg (u :: us)))))
        = ["tcp"]).
Proof.
  split; [intros [] []; discriminate|].
  split; [reflexivity|].
  split; [intros l p lg u us; erewrite main_started by reflexivity; reflexivity|].
  split.
  { intros l p lg [|u us]; [constructor|].
    erewrite main_started by reflexivity. simpl.
    repeat constructor. discriminate. }
  split; [intros l p lg u us; erewrite main_started by reflexivity; reflexivity|].
  split.
  { intros l p lg [|u us]; [constructor|].
    erewrite main_started by reflexivity. simpl.
    repeat constructor. discriminate. }
  intros l p lg u us. erewrite main_started by reflexivity. reflexivity.
Qed.

(** C8. Without any [-u], [main] prints the flag defaults and exits with
    status 1, having started no listener; so every listener [main] starts
    serves a proxy whose upstream list is the non-empty list of [-u] values. *)
Theorem C8_listeners_have_upstreams :
  (forall l p tcp udp lg,
     main (mkFlags l p tcp udp lg []) = ([SPrintDefaults], Exit 1))
  /\ (forall f srv,
        srv ∈ started (fst (main f)) ->
        upstreamURLs (Proxy srv) = flag_u f /\ upstreamURLs (Proxy srv) <> []).
Proof.
  split; [intros; reflexivity|].
  intros f srv Hin. destruct (flag_u f) as [|u us] eqn:Hu.
  - destruct f as [l p tcp udp lg us']. simpl in Hu. subst us'.
    rewrite main_without_upstream in Hin. inversion Hin.
  - rewrite (main_started f u us Hu) in Hin.
    apply Run_loop_proxy in Hin. rewrite Hin. simpl. rewrite Hu.
    split; [reflexivity | discriminate].
Qed.

Lemma C8_listeners_witness :
  upstreamURLs
    (Proxy (mkServer "127.0.0.1" "53" "udp"
              (mkDoHProxy "127.0.0.1" "53" [Demo.url1; Demo.url2] [UDP] false)))
  <> [].
Proof.
  destruct C8_listeners_have_upstreams as (_ & H).
  destruct (H (mkFlags "127.0.0.1" "53" false true false [Demo.url1; Demo.url2])
              (mkServer "127.0.0.1" "53" "udp"
                 (mkDoHProxy "127.0.0.1" "53" [Demo.url1; Demo.url2] [UDP] false)))
    as (_ & Hne).
  - apply list_elem_of_here.
  - exact Hne.
Defined.

(** * Further properties of the handler *)

Section MoreTraceFacts.

Context {Msg : Type}.
Implicit Types tr : list (Event Msg).

Lemma closed_bodies_app tr1 tr2 :
  closed_bodies (tr1 ++ tr2) = closed_bodies tr1 ++ closed_bodies tr2.
Proof. apply omap_app. Qed.

Lemma closed_bodies_sent q urls : closed_bodies (sent (Msg:=Msg) q urls) = [].
Proof. induction urls as [|u l IH]; simpl; [reflexivity | exact IH]. Qed.

Lemma without_logs_app tr1 tr2 :
  without_logs (tr1 ++ tr2) = without_logs tr1 ++ without_logs tr2.
Proof. apply omap_app. Qed.

Lemma Tail_answers (W : World Msg) p r v evs :
  Tail W p r v evs -> (length (answers evs) <= 1)%nat.
Proof.
  intros H. destruct H; try (simpl; lia); destruct (logRequests p); simpl; lia.
Qed.

End MoreTraceFacts.

Section PanicFacts.

Context {Msg : Type} (W : World Msg).

(** How the loop can panic: a URL of the list does not parse, or the client
    hands back neither a response nor an error. *)
Lemma upstream_loop_panics q urls v (s s' : State Msg) site :
  upstream_loop W q urls v s = (s', Panic site) ->
  (site = NilRequest_HeaderSet
   /\ exists u, u ∈ urls /\ is_Some (NewRequest_err W u))
  \/ (site = NilResponse_StatusCode
      /\ exists n u, u ∈ urls /\ client_Do W n (doh_request u q) = (None, None)).
Proof.
  revert v s. induction urls as [|u rest IH]; intros v s Hrun.
  - discriminate.
  - rewrite upstream_loop_cons in Hrun.
    destruct (NewRequest_err W u) as [e|] eqn:Hnew.
    { injection Hrun as _ <-. left. split; [reflexivity|].
      exists u. split; [apply list_elem_of_here | rewrite Hnew; eauto]. }
    cbv zeta in Hrun.
    assert (Hrec : forall v1,
      upstream_loop W q rest v1 (after_calls q [u] s) = (s', Panic site) ->
      (site = NilRequest_HeaderSet
       /\ exists u0, u0 ∈ u :: rest /\ is_Some (NewRequest_err W u0))
      \/ (site = NilResponse_StatusCode
          /\ exists n u0, u0 ∈ u :: rest
               /\ client_Do W n (doh_request u0 q) = (None, None))).
    { intros v1 Hloop.
      destruct (IH _ _ Hloop) as [(-> & u0 & Hin & Hsome)
                                 | (-> & n & u0 & Hin & Hdo)].
      - left. split; [reflexivity|]. exists u0.
        split; [apply list_elem_of_further; exact Hin | exact Hsome].
      - right. split; [reflexivity|]. exists n, u0.
        split; [apply list_elem_of_further; exact Hin | exact Hdo]. }
    destruct (client_Do W (calls s) (doh_request u q))
      as [[resp|] [e|]] eqn:Hdo.
    + exact (Hrec _ Hrun).
    + destruct (StatusCode resp =? StatusOK); [discriminate | exact (Hrec _ Hrun)].
    + exact (Hrec _ Hrun).
    + injection Hrun as _ <-. right. split; [reflexivity|].
      exists (calls s), u. split; [apply list_elem_of_here | exact Hdo].
Qed.

(** A run of the handler that panics does so inside the loop. *)
Lemma run_handler_panics p r (s' : State Msg) site :
  run_handler W p r = (s', Panic site) ->
  exists q,
    Pack W r = Ok q
    /\ upstream_loop W q (upstreamURLs p) (mkLoopVars None None "")
         (mkState [] 0) = (s', Panic site).
Proof.
  intros Hrun. destruct (Pack W r) as [q|e] eqn:Hpack.
  - exists q. split; [reflexivity|].
    rewrite (run_handler_packed W p r q Hpack) in Hrun.
    destruct (upstream_loop W q (upstreamURLs p) (mkLoopVars None None "")
                (mkState [] 0)) as [s1 [v'|site1]].
    + destruct (after_loop_run W p r v' s1) as (evs & Hafter & _).
      rewrite Hafter in Hrun. discriminate.
    + injection Hrun as -> ->. reflexivity.
  - rewrite (run_handler_pack_error W p r e Hpack) in Hrun. discriminate.
Qed.

End PanicFacts.

(** X1. Whatever the codec and the network do, one run of the handler writes
    at most one answer to the client. *)
Theorem X1_at_most_one_answer {Msg : Type} (W : World Msg) p r :
  (length (answers (handler_trace W p r)) <= 1)%nat.
Proof.
  unfold handler_trace. destruct (Pack W r) as [q|e] eqn:Hpack.
  - destruct (run_handler_shape W p r q Hpack)
      as (m & _ & [(site & ->) | (v' & evs & _ & Htail & ->)]); simpl.
    + rewrite answers_sent. simpl. lia.
    + rewrite answers_app, answers_sent. simpl.
      exact (Tail_answers W p r v' evs Htail).
  - rewrite (run_handler_pack_error W p r e Hpack). simpl. lia.
Qed.

(** X2. When every configured URL is one [http.NewRequest] accepts and the
    HTTP client never hands back a nil response together with a nil error,
    the handler returns: it does not panic, whatever the upstreams answer. *)
Theorem X2_returns_when_urls_parse {Msg : Type} (W : World Msg) p r :
  (forall u, u ∈ upstreamURLs p -> NewRequest_err W u = None) ->
  (forall n rq, client_Do W n rq <> (None, None)) ->
  snd (run_handler W p r) = Val tt.
Proof.
  intros Hurls Hdo.
  destruct (run_handler W p r) as [s' [[]|site]] eqn:Hrun; [reflexivity|].
  exfalso.
  destruct (run_handler_panics W p r s' site Hrun) as (q & _ & Hloop).
  destruct (upstream_loop_panics W q _ _ _ _ _ Hloop)
    as [(_ & u & Hin & Hsome) | (_ & n & u & _ & Hnil)].
  - rewrite (Hurls u Hin) in Hsome. destruct Hsome as [e He]. discriminate.
  - exact (Hdo n _ Hnil).
Qed.

Lemma X2_returns_witness :
  snd (run_handler Demo.world Demo.three Demo.query) = Val tt.
Proof.
  apply X2_returns_when_urls_parse.
  - intros u Hu. simpl in Hu.
    repeat (apply elem_of_cons in Hu as [->|Hu]; [reflexivity|]).
    inversion Hu.
  - intros n rq. simpl. unfold Demo.demo_Do.
    destruct (decide (URL rq = Demo.url1)); discriminate.
Defined.

(** X3. A run that panics does so at [req.Header.Set] because some
    configured URL does not parse, or at [response.StatusCode] because the
    client handed back nil and nil; never inside [p.client.Do] on a nil
    request.  Such a run has logged nothing, written nothing to the client
    and closed no body. *)
Theorem X3_panicking_runs_are_silent {Msg : Type} (W : World Msg) p r site :
  snd (run_handler W p r) = Panic site ->
  ((site = NilRequest_HeaderSet
    /\ exists u, u ∈ upstreamURLs p /\ is_Some (NewRequest_err W u))
   \/ (site = NilResponse_StatusCode
       /\ exists q n u, Pack W r = Ok q /\ u ∈ upstreamURLs p
            /\ client_Do W n (doh_request u q) = (None, None)))
  /\ log_lines (handler_trace W p r) = []
  /\ answers (handler_trace W p r) = []
  /\ closed_bodies (handler_trace W p r) = [].
Proof.
  intros Hsnd. unfold handler_trace.
  destruct (run_handler W p r) as [s' res] eqn:Hrun. simpl in Hsnd. subst res.
  destruct (run_handler_panics W p r s' site Hrun) as (q & Hpack & Hloop).
  split.
  - destruct (upstream_loop_panics W q _ _ _ _ _ Hloop)
      as [(-> & u & Hin & Hsome) | (-> & n & u & Hin & Hnil)].
    + left. eauto.
    + right. split; [reflexivity|]. exists q, n, u. auto.
  - destruct (upstream_loop_asks_prefix W q (upstreamURLs p)
                (mkLoopVars None None "") (mkState [] 0)) as (m & _ & Hfst).
    rewrite Hloop in Hfst. simpl in Hfst. subst s'. simpl.
    rewrite log_lines_sent, answers_sent, closed_bodies_sent. auto.
Qed.

Lemma X3_panicking_runs_witness :
  log_lines (handler_trace Demo.world Demo.broken Demo.query) = []
  /\ answers (handler_trace Demo.world Demo.broken Demo.query) = [].
Proof.
  destruct (X3_panicking_runs_are_silent Demo.world Demo.broken Demo.query
              NilRequest_HeaderSet eq_refl) as (_ & Hl & Ha & _).
  split; [exact Hl | exact Ha].
Defined.

(** X4. When the first upstream that does not fail answers 200, its body is
    read without error and unpacks to the message [m], the run is: the HTTP
    calls up to that upstream, the line naming it if logging is on, [m]
    written to the client, the body closed.  The client is sent [m] and
    nothing else. *)
Theorem X4_served_answer_is_the_unpacked_body {Msg : Type} (W : World Msg)
    p r q pre u post resp m :
  Pack W r = Ok q ->
  upstreamURLs p = pre ++ u :: post ->
  all_fail W q 0 pre = true ->
  NewRequest_err W u = None ->
  client_Do W (length pre) (doh_request u q) = (Some resp, None) ->
  StatusCode resp = StatusOK ->
  u <> "" ->
  read_err (Body resp) = None ->
  Unpack W (data (Body resp)) = Ok m ->
  run_handler W p r
  = (mkState (sent q (pre ++ [u])
              ++ (if logRequests p
                  then [EvLog ("Successfully proxied request through  " +:+ u)]
                  else [])
              ++ [EvWriteMsg m; EvClose resp])
             (length (pre ++ [u])),
     Val tt)
  /\ answers (handler_trace W p r) = [Reply m].
Proof.
  intros Hpack Hurls Hfail Hnew Hdo Hst Hne Hread Hun.
  assert (Hrun : run_handler W p r
    = (mkState (sent q (pre ++ [u])
                ++ (if logRequests p
                    then [EvLog ("Successfully proxied request through  " +:+ u)]
                    else [])
                ++ [EvWriteMsg m; EvClose resp])
               (length (pre ++ [u])), Val tt)).
  { rewrite (run_handler_selected W p r q pre u post resp); auto.
    unfold after_loop. simpl.
    destruct (decide (u = "")) as [Heq|_]; [contradiction|].
    unfold serve_response, io_ReadAll. rewrite Hread, Hun.
    destruct (logRequests p); go_unfold; simpl; rewrite <- ?app_assoc;
      reflexivity. }
  split; [exact Hrun|].
  unfold handler_trace. rewrite Hrun. simpl.
  rewrite !answers_app, answers_sent. destruct (logRequests p); reflexivity.
Qed.

Lemma X4_served_answer_witness :
  answers (handler_trace Demo.world Demo.three Demo.query)
  = [Reply "example.com A 1.2.3.4"].
Proof.
  destruct (X4_served_answer_is_the_unpacked_body Demo.world Demo.three
              Demo.query Demo.wire [Demo.url1] Demo.url2 [Demo.url3]
              Demo.ok_response "example.com A 1.2.3.4"
              eq_refl eq_refl eq_refl eq_refl eq_refl eq_refl
              ltac:(discriminate) eq_refl eq_refl) as (_ & Ha).
  exact Ha.
Defined.

(** X5. When reading the selected response's body ends in an error, the
    handler logs it, writes the generic failure answer, closes the body and
    returns; the bytes read so far are not unpacked, so the outcome does not
    depend on them. *)
Theorem X5_read_error_answers_with_failure {Msg : Type} (W : World Msg)
    p r q pre u post resp e :
  Pack W r = Ok q ->
  upstreamURLs p = pre ++ u :: post ->
  all_fail W q 0 pre = true ->
  NewRequest_err W u = None ->
  client_Do W (length pre) (doh_request u q) = (Some resp, None) ->
  StatusCode resp = StatusOK ->
  u <> "" ->
  read_err (Body resp) = Some e ->
  run_handler W p r
  = (mkState (sent q (pre ++ [u])
              ++ [EvLog ("Failed to read response from upstream: " +:+ e);
                  EvHandleFailed r; EvClose resp])
             (length (pre ++ [u])),
     Val tt)
  /\ answers (handler_trace W p r) = [Failure r].
Proof.
  intros Hpack Hurls Hfail Hnew Hdo Hst Hne Hread.
  assert (Hrun : run_handler W p r
    = (mkState (sent q (pre ++ [u])
                ++ [EvLog ("Failed to read response from upstream: " +:+ e);
                    EvHandleFailed r; EvClose resp])
               (length (pre ++ [u])), Val tt)).
  { rewrite (run_handler_selected W p r q pre u post resp); auto.
    unfold after_loop. simpl.
    destruct (decide (u = "")) as [Heq|_]; [contradiction|].
    unfold serve_response, io_ReadAll. rewrite Hread.
    go_unfold. simpl. rewrite <- ?app_assoc. reflexivity. }
  split; [exact Hrun|].
  unfold handler_trace. rewrite Hrun. simpl.
  rewrite answers_app, answers_sent. reflexivity.
Qed.

Lemma X5_read_error_witness :
  answers (handler_trace Demo.world_truncated Demo.quiet Demo.query)
  = [Failure Demo.query]
  /\ log_lines (handler_trace Demo.world_truncated Demo.quiet Demo.query)
     = ["Failed to read response from upstream: unexpected EOF"].
Proof.
  destruct (X5_read_error_answers_with_failure Demo.world_truncated
              Demo.quiet Demo.query Demo.wire [] Demo.url1
              [Demo.url2; Demo.url3] Demo.truncated_response "unexpected EOF"
              eq_refl eq_refl eq_refl eq_refl eq_refl eq_refl
              ltac:(discriminate) eq_refl) as (Hrun & Ha).
  split; [exact Ha|]. unfold handler_trace. rewrite Hrun. reflexivity.
Defined.

(** X6. One run closes at most one response body.  A body that is closed is
    the one of the selected response (no error, status 200), and closing it
    is the last thing the run does; the responses of upstreams that were
    passed over are never closed. *)
Theorem X6_only_the_selected_body_is_closed {Msg : Type} (W : World Msg) p r :
  closed_bodies (handler_trace W p r) = []
  \/ exists resp tr,
       handler_trace W p r = tr ++ [EvClose resp]
       /\ closed_bodies tr = []
       /\ StatusCode resp = StatusOK
       /\ exists q pre u post,
            Pack W r = Ok q
            /\ upstreamURLs p = pre ++ u :: post
            /\ all_fail W q 0 pre = true
            /\ client_Do W (length pre) (doh_request u q) = (Some resp, None).
Proof.
  unfold handler_trace. destruct (Pack W r) as [q|e] eqn:Hpack.
  - destruct (run_handler_shape W p r q Hpack)
      as (k & _ & [(site & Hrun) | (v' & evs & Hloop & Htail & Hrun)]);
      rewrite Hrun; simpl.
    { left. apply closed_bodies_sent. }
    destruct (upstream_loop_returns W q _ _ _ _ _ Hloop)
      as [(Hcu & _) | (pre & u & post & resp & Hurls & Hall & _ & Hdo & Hst & Hv & _)].
    + simpl in Hcu. destruct Htail; try contradiction.
      left. rewrite closed_bodies_app, closed_bodies_sent.
      destruct (logRequests p); reflexivity.
    + simpl in Hdo, Hall. subst v'.
      assert (Hfound : forall front : list (Event Msg),
        closed_bodies front = [] ->
        exists resp0 tr,
          sent q (take k (upstreamURLs p)) ++ front ++ [EvClose resp]
          = tr ++ [EvClose resp0]
          /\ closed_bodies tr = []
          /\ StatusCode resp0 = StatusOK
          /\ exists q0 pre0 u0 post0,
               Ok q = Ok q0
               /\ upstreamURLs p = pre0 ++ u0 :: post0
               /\ all_fail W q0 0 pre0 = true
               /\ client_Do W (length pre0) (doh_request u0 q0)
                  = (Some resp0, None)).
      { intros front Hfront.
        exists resp, (sent q (take k (upstreamURLs p)) ++ front).
        split; [now rewrite app_assoc|].
        split; [rewrite closed_bodies_app, closed_bodies_sent; exact Hfront|].
        split; [exact Hst|]. exists q, pre, u, post. auto. }
      destruct Htail as [Hcu | Hcu Hresp | resp0 e Hcu Hresp Hread
                        | resp0 e Hcu Hresp Hread Hun
                        | resp0 m0 Hcu Hresp Hread Hun]; simpl in *.
      * left. rewrite closed_bodies_app, closed_bodies_sent.
        destruct (logRequests p); reflexivity.
      * discriminate.
      * injection Hresp as <-. right.
        apply (Hfound [EvLog ("Failed to read response from upstream: " +:+ e);
                       EvHandleFailed r]). reflexivity.
      * injection Hresp as <-. right.
        apply (Hfound [EvLog ("Failed to unpack DNS response: " +:+ e);
                       EvHandleFailed r]). reflexivity.
      * injection Hresp as <-. right.
        destruct (logRequests p); simpl.
        -- apply (Hfound [EvLog ("Successfully proxied request through  " +:+ u);
                          EvWriteMsg m0]). reflexivity.
        -- apply (Hfound [EvWriteMsg m0]). reflexivity.
  - left. rewrite (run_handler_pack_error W p r e Hpack). reflexivity.
Qed.

(** What follows the loop differs between two configurations only in the
    log lines. *)
Lemma after_loop_without_logs {Msg : Type} (W : World Msg) p p' r v
    (s : State Msg) :
  without_logs (trace (fst (after_loop W p r v s)))
  = without_logs (trace (fst (after_loop W p' r v s)))
  /\ snd (after_loop W p r v s) = snd (after_loop W p' r v s).
Proof.
  unfold after_loop, serve_response, io_ReadAll.
  destruct (decide (currentUpstream v = "")) as [_|_].
  - destruct (logRequests p), (logRequests p'); go_unfold; simpl;
      rewrite ?without_logs_app, ?app_nil_r; simpl; rewrite ?app_nil_r; auto.
  - destruct (response v) as [resp|]; [|auto].
    destruct (read_err (Body resp)) as [e|]; [auto|].
    destruct (Unpack W (data (Body resp))) as [m|e]; [|auto].
    destruct (logRequests p), (logRequests p'); go_unfold; simpl;
      rewrite ?without_logs_app; simpl; rewrite ?app_nil_r; auto.
Qed.

(** X7. Two proxies with the same upstream list handle a request alike up to
    logging: the same HTTP calls, the same answer to the client, the same
    body closed and the same way of ending.  The logging flag and the listen
    settings change nothing but the log. *)
Theorem X7_only_the_log_depends_on_the_flag {Msg : Type} (W : World Msg)
    p p' r :
  upstreamURLs p = upstreamURLs p' ->
  without_logs (handler_trace W p r) = without_logs (handler_trace W p' r)
  /\ snd (run_handler W p r) = snd (run_handler W p' r).
Proof.
  intros Hurls. unfold handler_trace. destruct (Pack W r) as [q|e] eqn:Hpack.
  - rewrite (run_handler_packed W p r q Hpack),
      (run_handler_packed W p' r q Hpack), Hurls.
    destruct (upstream_loop W q (upstreamURLs p') (mkLoopVars None None "")
                (mkState [] 0)) as [s' [v'|site]].
    + apply after_loop_without_logs.
    + auto.
  - rewrite (run_handler_pack_error W p r e Hpack),
      (run_handler_pack_error W p' r e Hpack). auto.
Qed.

Lemma X7_only_the_log_witness :
  without_logs (handler_trace Demo.world Demo.three Demo.query)
  = without_logs (handler_trace Demo.world Demo.quiet Demo.query).
Proof.
  destruct (X7_only_the_log_depends_on_the_flag Demo.world Demo.three
              Demo.quiet Demo.query eq_refl) as (Htr & _).
  exact Htr.
Defined.

(** * Further properties of startup *)

Lemma main_lines_app ev1 ev2 :
  main_lines (ev1 ++ ev2) = main_lines ev1 ++ main_lines ev2.
Proof. apply omap_app. Qed.

(** [Run] does nothing but start listeners. *)
Lemma Run_loop_only_starts p protos :
  Run_loop p protos = map SGo (started (Run_loop p protos)).
Proof.
  induction protos as [|proto rest IH]; simpl; [reflexivity|].
  rewrite started_app, map_app, <- IH.
  destruct (proto =? TCP); [|destruct (proto =? UDP)]; reflexivity.
Qed.

Lemma main_lines_starts srvs : main_lines (map SGo srvs) = [].
Proof. induction srvs as [|srv l IH]; simpl; [reflexivity | exact IH]. Qed.

(** The listeners of [Run]: the TCP one for each [TCP] entry, the UDP one for
    each [UDP] entry. *)
Lemma Run_loop_started p protos srv :
  srv ∈ started (Run_loop p protos)
  <-> (srv = mkServer (listenAddress p) (port p) "tcp" p /\ TCP ∈ protos)
      \/ (srv = mkServer (listenAddress p) (port p) "udp" p /\ UDP ∈ protos).
Proof.
  induction protos as [|proto rest IH]; simpl.
  - split; [intros Hin; inversion Hin|].
    intros [[_ Hin]|[_ Hin]]; inversion Hin.
  - rewrite started_app, elem_of_app, IH, !elem_of_cons.
    destruct (proto =? TCP) eqn:Ht; [|destruct (proto =? UDP) eqn:Hu]; simpl.
    + apply Z.eqb_eq in Ht. subst proto.
      rewrite list_elem_of_singleton. split.
      * intros [->|[[-> Hin]|[-> Hin]]]; auto.
      * intros [[-> [_|Hin]]|[-> [Heq|Hin]]]; auto. discriminate.
    + apply Z.eqb_eq in Hu. apply Z.eqb_neq in Ht. subst proto.
      rewrite list_elem_of_singleton. split.
      * intros [->|[[-> Hin]|[-> Hin]]]; auto.
      * intros [[-> [Heq|Hin]]|[-> [_|Hin]]]; auto. discriminate.
    + apply Z.eqb_neq in Ht. apply Z.eqb_neq in Hu. split.
      * intros [Hin|[[-> Hin]|[-> Hin]]]; [inversion Hin | auto | auto].
      * intros [[-> [Heq|Hin]]|[-> [Heq|Hin]]]; auto; congruence.
Qed.

Lemma Run_loop_length p protos :
  (length (started (Run_loop p protos)) <= length protos)%nat.
Proof.
  induction protos as [|proto rest IH]; simpl; [lia|].
  rewrite started_app, length_app.
  destruct (proto =? TCP); [|destruct (proto =? UDP)]; simpl; lia.
Qed.

(** The whole trace of the main goroutine on a command line with at least
    one [-u]. *)
Lemma main_with_upstreams f u us :
  flag_u f = u :: us ->
  main f
  = (map (fun v => SLog (added_line v)) (flag_u f)
     ++ (if flag_log f then [SLog "Logging requests"] else [])
     ++ Run_loop (NewDoHProxy (flag_l f) (flag_p f) (flag_u f)
                    (select_protocols (flag_tcp f) (flag_udp f)) (flag_log f))
          (select_protocols (flag_tcp f) (flag_udp f)),
     Blocked).
Proof.
  intros Hu. unfold main. rewrite fold_add_upstream.
  cbn [app]. rewrite Hu. cbn [length Nat.eqb]. unfold Run, added_line.
  destruct (flag_log f); rewrite <- ?app_assoc; reflexivity.
Qed.

(** X8. The goroutines [Run] starts are exactly these: the TCP listener when
    [TCP] is among [p.protocols], the UDP listener when [UDP] is, each on the
    proxy's own address and port and serving the proxy itself.  Other
    protocol numbers and an empty list start nothing, and there are never
    more goroutines than entries. *)
Theorem X8_Run_starts_the_listed_protocols p :
  (forall srv,
     srv ∈ started (fst (Run p))
     <-> (srv = mkServer (listenAddress p) (port p) "tcp" p
          /\ TCP ∈ protocols p)
         \/ (srv = mkServer (listenAddress p) (port p) "udp" p
             /\ UDP ∈ protocols p))
  /\ (length (started (fst (Run p))) <= length (protocols p))%nat.
Proof.
  split.
  - intros srv. apply Run_loop_started.
  - apply Run_loop_length.
Qed.

Lemma X8_Run_witness :
  mkServer "::1" "53" "udp" (mkDoHProxy "::1" "53" [Demo.url2] [7; UDP] true)
  ∈ started (fst (Run (mkDoHProxy "::1" "53" [Demo.url2] [7; UDP] true))).
Proof.
  destruct (X8_Run_starts_the_listed_protocols
              (mkDoHProxy "::1" "53" [Demo.url2] [7; UDP] true)) as (H & _).
  apply H. right. split; [reflexivity|].
  apply list_elem_of_further, list_elem_of_here.
Defined.

(** X9. Every listener [main] starts listens on the [-l] address and the
    [-p] port over TCP or UDP, and all of them serve one and the same proxy:
    the [-u] values in command-line order, the selected protocols and the
    [-log] flag. *)
Theorem X9_listeners_share_the_proxy_of_the_flags f srv :
  srv ∈ started (fst (main f)) ->
  Host srv = flag_l f
  /\ Port srv = flag_p f
  /\ (Net srv = "tcp" \/ Net srv = "udp")
  /\ Proxy srv
     = mkDoHProxy (flag_l f) (flag_p f) (flag_u f)
         (select_protocols (flag_tcp f) (flag_udp f)) (flag_log f).
Proof.
  intros Hin. destruct (flag_u f) as [|u us] eqn:Hu.
  - destruct f as [l p tcp udp lg us']. simpl in Hu. subst us'.
    rewrite main_without_upstream in Hin. inversion Hin.
  - rewrite (main_started f u us Hu), Hu in Hin.
    apply Run_loop_started in Hin as [[-> _]|[-> _]]; simpl; auto.
Qed.

Lemma X9_listeners_share_witness :
  Host (mkServer "0.0.0.0" "5353" "tcp"
          (mkDoHProxy "0.0.0.0" "5353" [Demo.url2] [TCP] true))
  = "0.0.0.0".
Proof.
  destruct (X9_listeners_share_the_proxy_of_the_flags
              (mkFlags "0.0.0.0" "5353" true false true [Demo.url2])
              (mkServer "0.0.0.0" "5353" "tcp"
                 (mkDoHProxy "0.0.0.0" "5353" [Demo.url2] [TCP] true)))
    as (Hh & _).
  - apply list_elem_of_here.
  - exact Hh.
Defined.

(** X10. With at least one [-u], [main] starts one listener goroutine per
    transport asked for and never two on the same transport: TCP then UDP
    when both flags or neither are given, otherwise the one that was
    given. *)
Theorem X10_one_listener_per_transport l p tcp udp lg u us :
  map Net (started (fst (main (mkFlags l p tcp udp lg (u :: us)))))
  = (if tcp || negb udp then ["tcp"] else [])
    ++ (if udp || negb tcp then ["udp"] else [])
  /\ NoDup (map Net (started (fst (main (mkFlags l p tcp udp lg (u :: us)))))).
Proof.
  assert (Hnets :
    map Net (started (fst (main (mkFlags l p tcp udp lg (u :: us)))))
    = (if tcp || negb udp then ["tcp"] else [])
      ++ (if udp || negb tcp then ["udp"] else [])).
  { erewrite main_started by reflexivity. destruct tcp, udp; reflexivity. }
  split; [exact Hnets|].
  rewrite Hnets. destruct tcp, udp; simpl;
    try apply NoDup_singleton;
    (apply NoDup_cons; split; [|apply NoDup_singleton]);
    intros Hin; apply list_elem_of_singleton in Hin; discriminate.
Qed.

(** X11. What [main] itself logs, on the main goroutine: one "Added ..."
    line per [-u] value, in command-line order, then "Logging requests" when
    [-log] is given; without any [-u] it logs nothing, even with [-log].
    All these lines are written before the first [go] statement, or before
    the flag defaults are printed; what the listener goroutines log comes
    after their [go] statement and is not part of this trace. *)
Theorem X11_lines_of_the_main_goroutine f :
  main_lines (fst (main f))
  = match flag_u f with
    | [] => []
    | _ :: _ =>
        map added_line (flag_u f)
        ++ (if flag_log f then ["Logging requests"] else [])
    end
  /\ fst (main f)
     = map SLog (main_lines (fst (main f)))
       ++ match flag_u f with
          | [] => [SPrintDefaults]
          | _ :: _ => map SGo (started (fst (main f)))
          end.
Proof.
  destruct (flag_u f) as [|u us] eqn:Hu.
  - destruct f as [l p tcp udp lg us']. simpl in Hu. subst us'.
    rewrite main_without_upstream. split; reflexivity.
  - assert (Hlines : main_lines (fst (main f))
      = map added_line (u :: us)
        ++ (if flag_log f then ["Logging requests"] else [])).
    { rewrite (main_with_upstreams f u us Hu), Hu. cbn [fst].
      rewrite Run_loop_only_starts, !main_lines_app, main_lines_starts.
      rewrite app_nil_r. f_equal.
      - generalize (u :: us). intros l.
        induction l as [|x l IH]; simpl; [reflexivity | now rewrite IH].
      - destruct (flag_log f); reflexivity. }
    split; [exact Hlines|].
    rewrite Hlines, (main_started f u us Hu), <- Run_loop_only_starts.
    rewrite (main_with_upstreams f u us Hu). cbn [fst].
    rewrite Hu, map_app, map_map, <- app_assoc.
    f_equal. f_equal. destruct (flag_log f); reflexivity.
Qed.

(** X12. Every listener goroutine [main] starts first registers, for all
    names, the handler of the proxy built from the flags, then logs "Starting
    DoH Proxy on <-l>:<-p> over TCP" (or UDP), then calls [ListenAndServe] on
    its own server.  If that call returns an error, the goroutine logs
    "Failed to start DNS server (TCP): <error>" (or UDP) and ends the process
    with exit status 1; otherwise it logs nothing more. *)
Theorem X12_listener_goroutine_of_main f srv res :
  srv ∈ started (fst (main f)) ->
  exists label,
    ((Net srv = "tcp" /\ label = "TCP") \/ (Net srv = "udp" /\ label = "UDP"))
    /\ goroutine srv res
       = ([LHandleFunc "."
             (mkDoHProxy (flag_l f) (flag_p f) (flag_u f)
                (select_protocols (flag_tcp f) (flag_udp f)) (flag_log f));
           LLog ("Starting DoH Proxy on " +:+ flag_l f +:+ ":" +:+ flag_p f
                 +:+ " over " +:+ label);
           LListenAndServe srv]
          ++ match res with
             | Returns (Some e) =>
                 [LLog ("Failed to start DNS server (" +:+ label +:+ "): "
                        +:+ e)]
             | _ => []
             end,
          match res with
          | Serves => Serving
          | Returns None => Finished
          | Returns (Some e) => Fatal 1
          end).
Proof.
  intros Hin. destruct (flag_u f) as [|u us] eqn:Hu.
  - destruct f as [l p tcp udp lg us']. simpl in Hu. subst us'.
    rewrite main_without_upstream in Hin. inversion Hin.
  - rewrite (main_started f u us Hu), Hu in Hin.
    apply Run_loop_started in Hin as [[-> _]|[-> _]].
    + exists "TCP". split; [left; split; reflexivity|].
      destruct res as [|[e|]]; reflexivity.
    + exists "UDP". split; [right; split; reflexivity|].
      destruct res as [|[e|]]; reflexivity.
Qed.

Lemma X12_listener_goroutine_witness :
  snd (goroutine
         (mkServer "0.0.0.0" "53" "udp"
            (mkDoHProxy "0.0.0.0" "53" [Demo.url2] [UDP] false))
         (Returns (Some "listen udp 0.0.0.0:53: bind: permission denied")))
  = Fatal 1.
Proof.
  destruct (X12_listener_goroutine_of_main
              (mkFlags "0.0.0.0" "53" false true false [Demo.url2])
              (mkServer "0.0.0.0" "53" "udp"
                 (mkDoHProxy "0.0.0.0" "53" [Demo.url2] [UDP] false))
              (Returns (Some "listen udp 0.0.0.0:53: bind: permission denied")))
    as (label & _ & Hrun).
  - apply list_elem_of_here.
  - rewrite Hrun. reflexivity.
Defined.
